(** * Notification API: presence registry, fan-out and durable record

  A shallow embedding of the notification service:
  - [Js]: the JavaScript truthiness tests the handlers rely on;
  - [Model]: the [Notification] document and the collection operations the
    routes call on it ([models/Notification.js]);
  - [Sockets]: the connection registry and the push ([sockets/index.js]);
  - [ApiError]: the two errors the routes raise;
  - [Routes]: the four HTTP handlers ([routes/notifications.js]);
  - [System]: sequences of requests and socket events;
  - [Demo]: a small scenario the statements are tried on.

  Definitions come first, the theorems about them follow. *)

From Stdlib Require Import ZArith Lia.
From stdpp Require Import base gmap sets list strings sorting.

Local Open Scope string_scope.
Set Warnings "-register-all,-clear-no-such-hyp".

(** ** JavaScript values and truthiness *)
Module Js.

(** A JSON value, as found in a request body.  Numbers are kept as
    integers: the handlers only ever observe whether one is zero. *)
Inductive json : Type :=
| JNull
| JBool (b : bool)
| JNum (z : Z)
| JStr (s : string)
| JArr (items : list json)
| JObj (fields : list (string * json)).

(** [!s] for a string [s]: only the empty string is falsy. *)
Definition truthy_string (s : string) : bool :=
  match s with
  | EmptyString => false
  | String _ _ => true
  end.

(** A property that is absent reads as [undefined], which is falsy. *)
Definition truthy_opt (o : option string) : bool :=
  match o with
  | Some s => truthy_string s
  | None => false
  end.

Definition truthy (v : json) : bool :=
  match v with
  | JNull => false
  | JBool b => b
  | JNum z => negb (z =? 0)%Z
  | JStr s => truthy_string s
  | JArr _ => true
  | JObj _ => true
  end.

(** [v || {}] where [v] may be absent. *)
Definition or_empty_object (v : option json) : json :=
  match v with
  | Some j => if truthy j then j else JObj []
  | None => JObj []
  end.

End Js.

(** ** The Notification model (mongoose schema and collection) *)
Module Model.
Import Js.

(** A stored document.  [_id] stands for the ObjectId, the two timestamps
    are the ones [timestamps: true] maintains. *)
Record Notification : Type := mkNotification {
  _id : nat;
  receiverId : string;
  type : string;
  payload : json;
  read : bool;
  appId : option string;
  senderId : option string;
  channel : string;
  createdAt : nat;
  updatedAt : nat;
}.

(** The object handed to [Notification.create]; [None] is an absent
    (undefined) property. *)
Record NewDoc : Type := mkNewDoc {
  new_receiverId : option string;
  new_type : option string;
  new_payload : option json;
  new_appId : option string;
  new_senderId : option string;
  new_channel : option string;
}.

(** The collection: its documents in insertion order and the source of
    fresh identifiers. *)
Record collection : Type := mkCollection {
  docs : list Notification;
  next_id : nat;
}.

(** Schema validation failure: the path whose [required] validator
    rejected the value. *)
Inductive ValidationError : Type :=
| PathRequired (path : string).

(** [required: true] on a String path rejects absent and empty values. *)
Definition required (path : string) (v : option string)
  : ValidationError + string :=
  match v with
  | Some s => if truthy_string s then inr s else inl (PathRequired path)
  | None => inl (PathRequired path)
  end.

(** [Notification.create(doc)] at time [now]: validate the required
    paths, fill the schema defaults, stamp, insert. *)
Definition create (d : NewDoc) (now : nat) (c : collection)
  : (ValidationError + Notification) * collection :=
  match required "receiverId" (new_receiverId d) with
  | inl e => (inl e, c)
  | inr rid =>
    match required "type" (new_type d) with
    | inl e => (inl e, c)
    | inr ty =>
      let n := {|
        _id := next_id c;
        receiverId := rid;
        type := ty;
        payload := default (JObj []) (new_payload d);
        read := false;
        appId := new_appId d;
        senderId := new_senderId d;
        channel := default "default" (new_channel d);
        createdAt := now;
        updatedAt := now;
      |} in
      (inr n, {| docs := docs c ++ [n]; next_id := S (next_id c) |})
    end
  end.

(** A query filter as the routes build it: [receiverId] and [appId]
    always, the other three conditions only when set. *)
Record filter_doc : Type := mkFilter {
  f_receiverId : string;
  f_appId : string;
  f_read : option bool;
  f_type : option string;
  f_channel : option string;
}.

Definition cond {A} `{EqDecision A} (c : option A) (v : A) : bool :=
  match c with
  | Some x => bool_decide (v = x)
  | None => true
  end.

(** Equality match of every condition of the filter. *)
Definition matches (q : filter_doc) (n : Notification) : bool :=
  bool_decide (receiverId n = f_receiverId q)
  && bool_decide (appId n = Some (f_appId q))
  && cond (f_read q) (read n)
  && cond (f_type q) (type n)
  && cond (f_channel q) (channel n).

Definition find (q : filter_doc) (c : collection) : list Notification :=
  filter (λ n, matches q n) (docs c).

(** [.sort({ createdAt: -1 })]: newest first. *)
Definition newer_first (a b : Notification) : Prop :=
  (createdAt b ≤ createdAt a)%nat.

#[global] Instance newer_first_dec : RelDecision newer_first.
Proof. intros a b. unfold newer_first. apply _. Defined.

Definition sort_createdAt_desc (l : list Notification) : list Notification :=
  merge_sort newer_first l.

Definition skip (k : nat) (l : list Notification) : list Notification :=
  drop k l.

(** [.limit(k)]: a limit of zero means no limit. *)
Definition limit (k : nat) (l : list Notification) : list Notification :=
  match k with
  | O => l
  | S _ => take k l
  end.

Definition countDocuments (q : filter_doc) (c : collection) : nat :=
  length (find q c).

(** The update [{ read: true }], with the [updatedAt] stamp that
    [timestamps: true] adds to every update. *)
Definition set_read (now : nat) (n : Notification) : Notification :=
  {| _id := _id n;
     receiverId := receiverId n;
     type := type n;
     payload := payload n;
     read := true;
     appId := appId n;
     senderId := senderId n;
     channel := channel n;
     createdAt := createdAt n;
     updatedAt := now |}.

(** [findByIdAndUpdate(id, { read: true }, { new: true })]: the first
    document with that identifier is updated and returned as updated. *)
Fixpoint update_by_id (id now : nat) (l : list Notification)
  : option Notification * list Notification :=
  match l with
  | [] => (None, [])
  | n :: l' =>
    if decide (_id n = id) then (Some (set_read now n), set_read now n :: l')
    else let '(r, l'') := update_by_id id now l' in (r, n :: l'')
  end.

Definition findByIdAndUpdate (id now : nat) (c : collection)
  : option Notification * collection :=
  let '(r, l) := update_by_id id now (docs c) in
  (r, {| docs := l; next_id := next_id c |}).

(** A matched document counts as modified when the update changes one of
    its fields. *)
Definition modified (now : nat) (n : Notification) : bool :=
  negb (read n) || negb (bool_decide (updatedAt n = now)).

(** [updateMany(q, { read: true })]: every matching document is updated;
    the result carries [modifiedCount]. *)
Definition updateMany (q : filter_doc) (now : nat) (c : collection)
  : nat * collection :=
  (length (filter (λ n, matches q n && modified now n) (docs c)),
   {| docs := (λ n, if matches q n then set_read now n else n) <$> docs c;
      next_id := next_id c |}).

End Model.

(** ** The connection registry and the push ([sockets/index.js]) *)
Module Sockets.
Import Js Model.

(** The body of a pushed [notification] message. *)
Record PushEvent : Type := mkPushEvent {
  ev_id : nat;
  ev_type : string;
  ev_payload : json;
  ev_channel : string;
  ev_senderId : option string;
  ev_createdAt : nat;
}.

(** Server-to-client messages, by event name. *)
Inductive message : Type :=
| MsgError (text : string)
| MsgSubscribed (receiverId text : string)
| MsgNotification (ev : PushEvent).

(** What a handler sends: [socket.emit] to one session, or
    [io.to(room).emit] to the sessions that are in the room at that time. *)
Inductive emission : Type :=
| ToSocket (sid : string) (m : message)
| ToRoom (room : string) (members : gset string) (m : message).

(** The transport: its rooms, each the set of session ids that joined. *)
Record Server : Type := mkServer {
  rooms : gmap string (gset string);
}.

(** Module state: [let io] (undefined until [initializeSocket]) and the
    [activeConnections] map, receiverId to set of socket ids. *)
Record state : Type := mkState {
  io : option Server;
  activeConnections : gmap string (gset string);
}.

Definition initial : state :=
  {| io := None; activeConnections := ∅ |}.

Definition initializeSocket (st : state) : state :=
  {| io := Some {| rooms := ∅ |};
     activeConnections := activeConnections st |}.

(** [socket.join(room)] and [socket.leave(room)]. *)
Definition join (sid room : string) (s : Server) : Server :=
  {| rooms := <[room := {[sid]} ∪ default ∅ (rooms s !! room)]> (rooms s) |}.

Definition leave (sid room : string) (s : Server) : Server :=
  {| rooms := alter (λ members, members ∖ {[sid]}) room (rooms s) |}.

(** On disconnection the transport takes the session out of every room
    before the [disconnect] handler runs. *)
Definition leave_all (sid : string) (s : Server) : Server :=
  {| rooms := (λ members, members ∖ {[sid]}) <$> rooms s |}.

(** [socket.on("subscribe", receiverId => ...)] for the session [sid]. *)
Definition subscribe (sid receiverId : string) (st : state)
  : state * list emission :=
  if negb (truthy_string receiverId) then
    (st, [ToSocket sid (MsgError "receiverId is required")])
  else
    let tracked :=
      match activeConnections st !! receiverId with
      | Some _ => activeConnections st
      | None => <[receiverId := ∅]> (activeConnections st)
      end in
    ({| io := join sid receiverId <$> io st;
        activeConnections := alter (λ sockets, {[sid]} ∪ sockets) receiverId tracked |},
     [ToSocket sid (MsgSubscribed receiverId "Successfully subscribed")]).

(** [socket.on("unsubscribe", receiverId => ...)]. *)
Definition unsubscribe (sid receiverId : string) (st : state) : state :=
  {| io := leave sid receiverId <$> io st;
     activeConnections :=
       match activeConnections st !! receiverId with
       | Some _ => alter (λ sockets, sockets ∖ {[sid]}) receiverId (activeConnections st)
       | None => activeConnections st
       end |}.

(** One turn of the loop of the [disconnect] handler, on the entry
    [(receiverId, sockets)]: the set is changed in place, and the entry is
    deleted when the set is left empty. *)
Definition disconnect_entry (sid : string) (tracked : gmap string (gset string))
    (entry : string * gset string) : gmap string (gset string) :=
  let '(receiverId, sockets) := entry in
  let sockets' := sockets ∖ {[sid]} in
  if decide (size sockets' = 0) then delete receiverId tracked
  else <[receiverId := sockets']> tracked.

(** [socket.on("disconnect", () => ...)]: the loop over all entries. *)
Definition disconnect (sid : string) (st : state) : state :=
  {| io := io st;
     activeConnections :=
       foldl (disconnect_entry sid) (activeConnections st)
             (map_to_list (activeConnections st)) |}.

(** [sendNotification(receiverId, notification)]. *)
Definition sendNotification (receiverId : string) (notification : PushEvent)
    (st : state) : bool * list emission :=
  match io st with
  | None => (false, [])
  | Some server =>
    (true, [ToRoom receiverId (default ∅ (rooms server !! receiverId))
                   (MsgNotification notification)])
  end.

(** [isReceiverOnline(receiverId)]. *)
Definition isReceiverOnline (receiverId : string) (st : state) : bool :=
  match activeConnections st !! receiverId with
  | Some sockets => bool_decide (0 < size sockets)
  | None => false
  end.

(** The registry holds no empty set. *)
Definition no_empty_set (tracked : gmap string (gset string)) : Prop :=
  ∀ receiverId sockets, tracked !! receiverId = Some sockets → sockets ≠ ∅.

End Sockets.

(** ** Errors raised by the routes *)
Module ApiError.

(** Modelled from the spec: [errors/errors.js] is not among the sources.
    The routes call its two constructors; a missing required field
    surfaces as the client error 400 and an unknown notification or route
    as 404. *)
Inductive t : Type :=
| badRequest (text : string)
| notFound (text : string).

Definition status (e : t) : nat :=
  match e with
  | badRequest _ => 400
  | notFound _ => 404
  end.

End ApiError.

(** ** The HTTP handlers ([routes/notifications.js]) *)
Module Routes.
Import Js Model.

(** What a handler passes to [next(error)]. *)
Inductive error : Type :=
| Api (e : ApiError.t)
| Validation (e : ValidationError).

(** Observable effects, in the order they happen. *)
Inductive event : Type :=
| Persisted (n : Notification)
| Emitted (e : Sockets.emission).

(** Process state: the sockets module, the collection, the effects so far. *)
Record world : Type := mkWorld {
  sockets : Sockets.state;
  db : collection;
  events : list event;
}.

(** A handler body: it runs on the process state and either throws or
    returns. *)
Definition M (A : Type) : Type := world → (error + A) * world.

#[global] Instance M_ret : MRet M := λ A a w, (inr a, w).

#[global] Instance M_bind : MBind M := λ A B k m w,
  match m w with
  | (inl e, w') => (inl e, w')
  | (inr a, w') => k a w'
  end.

Definition throw {A} (e : error) : M A := λ w, (inl e, w).

(** [await Notification.create(doc)]. *)
Definition Notification_create (d : NewDoc) (now : nat) : M Notification :=
  λ w,
    match create d now (db w) with
    | (inl e, _) => (inl (Validation e), w)
    | (inr n, c) =>
      (inr n, {| sockets := sockets w; db := c;
                 events := events w ++ [Persisted n] |})
    end.

(** [Notification.find(q).sort({ createdAt: -1 }).skip(k).limit(l)]. *)
Definition Notification_find (q : filter_doc) (k l : nat)
  : M (list Notification) :=
  λ w, (inr (limit l (skip k (sort_createdAt_desc (find q (db w))))), w).

Definition Notification_countDocuments (q : filter_doc) : M nat :=
  λ w, (inr (countDocuments q (db w)), w).

Definition Notification_findByIdAndUpdate (id now : nat)
  : M (option Notification) :=
  λ w,
    let '(r, c) := findByIdAndUpdate id now (db w) in
    (inr r, {| sockets := sockets w; db := c; events := events w |}).

Definition Notification_updateMany (q : filter_doc) (now : nat) : M nat :=
  λ w,
    let '(k, c) := updateMany q now (db w) in
    (inr k, {| sockets := sockets w; db := c; events := events w |}).

Definition sendNotification (receiverId : string) (ev : Sockets.PushEvent)
  : M bool :=
  λ w,
    let '(sent, out) := Sockets.sendNotification receiverId ev (sockets w) in
    (inr sent, {| sockets := sockets w; db := db w;
                  events := events w ++ (Emitted <$> out) |}).

Definition isReceiverOnline (receiverId : string) : M bool :=
  λ w, (inr (Sockets.isReceiverOnline receiverId (sockets w)), w).

(** *** POST / *)

(** The request body; its fields are strings, as the route documents
    them, and an absent field is [None]. *)
Record PostBody : Type := mkPostBody {
  body_receiverId : option string;
  body_type : option string;
  body_payload : option json;
  body_appId : option string;
  body_senderId : option string;
  body_channel : option string;
}.

Record PostResponse : Type := mkPostResponse {
  post_status : nat;
  post_success : bool;
  post_notification : Notification;
  post_delivered : bool;
}.

(** The object pushed over the socket: the stored notification without
    its addressing fields. *)
Definition push_event (n : Notification) : Sockets.PushEvent :=
  {| Sockets.ev_id := _id n;
     Sockets.ev_type := type n;
     Sockets.ev_payload := payload n;
     Sockets.ev_channel := channel n;
     Sockets.ev_senderId := senderId n;
     Sockets.ev_createdAt := createdAt n |}.

Definition missing_fields : error :=
  Api (ApiError.badRequest "Missing required fields: receiverId, type").

Definition post (now : nat) (body : PostBody) : M PostResponse :=
  match body_receiverId body, body_type body with
  | Some receiverId, Some type =>
    if negb (truthy_string receiverId) || negb (truthy_string type) then
      throw missing_fields
    else
      notification ← Notification_create
        {| new_receiverId := Some receiverId;
           new_type := Some type;
           new_payload := Some (or_empty_object (body_payload body));
           new_appId := body_appId body;
           new_senderId := body_senderId body;
           new_channel := body_channel body |} now;
      delivered ← sendNotification receiverId (push_event notification);
      mret {| post_status := 201;
              post_success := true;
              post_notification := notification;
              post_delivered := delivered |}
  | _, _ => throw missing_fields
  end.

(** *** GET /:receiverId *)

(** The query string; an absent parameter is [None].  [limit] and [skip]
    are held as the integers [parseInt] reads from them. *)
Record GetQuery : Type := mkGetQuery {
  q_unreadOnly : option string;
  q_type : option string;
  q_channel : option string;
  q_appId : option string;
  q_limit : option nat;
  q_skip : option nat;
}.

Record GetResponse : Type := mkGetResponse {
  notifications : list Notification;
  total : nat;
  unreadCount : nat;
  isOnline : bool;
}.

Definition missing_appId : error :=
  Api (ApiError.badRequest "Missing required query parameter: appId").

(** [if (v) query.k = v]: the condition is set only for a truthy value. *)
Definition when_truthy (v : option string) : option string :=
  if truthy_opt v then v else None.

Definition get (receiverId : string) (q : GetQuery) : M GetResponse :=
  match q_appId q with
  | Some appId =>
    if negb (truthy_string appId) then throw missing_appId
    else
      let query :=
        {| f_receiverId := receiverId;
           f_appId := appId;
           f_read := if bool_decide (q_unreadOnly q = Some "true")
                     then Some false else None;
           f_type := when_truthy (q_type q);
           f_channel := when_truthy (q_channel q) |} in
      notifications ← Notification_find query
        (default 0 (q_skip q)) (default 50 (q_limit q));
      total ← Notification_countDocuments
        {| f_receiverId := receiverId; f_appId := appId;
           f_read := None; f_type := None; f_channel := None |};
      unreadCount ← Notification_countDocuments
        {| f_receiverId := receiverId; f_appId := appId;
           f_read := Some false; f_type := None; f_channel := None |};
      online ← isReceiverOnline receiverId;
      mret {| notifications := notifications;
              total := total;
              unreadCount := unreadCount;
              isOnline := online |}
  | None => throw missing_appId
  end.

(** *** PATCH /:id/read *)
Record ReadResponse : Type := mkReadResponse {
  read_success : bool;
  read_notification : Notification;
}.

Definition patch_read (id now : nat) : M ReadResponse :=
  notification ← Notification_findByIdAndUpdate id now;
  match notification with
  | None => throw (Api (ApiError.notFound "Notification not found"))
  | Some n => mret {| read_success := true; read_notification := n |}
  end.

(** *** PATCH /:receiverId/read-all *)
Record ReadAllQuery : Type := mkReadAllQuery {
  ra_type : option string;
  ra_channel : option string;
  ra_appId : option string;
}.

Record ReadAllResponse : Type := mkReadAllResponse {
  ra_success : bool;
  modifiedCount : nat;
}.

Definition patch_read_all (receiverId : string) (q : ReadAllQuery) (now : nat)
  : M ReadAllResponse :=
  match ra_appId q with
  | Some appId =>
    if negb (truthy_string appId) then throw missing_appId
    else
      let query :=
        {| f_receiverId := receiverId;
           f_appId := appId;
           f_read := Some false;
           f_type := when_truthy (ra_type q);
           f_channel := when_truthy (ra_channel q) |} in
      k ← Notification_updateMany query now;
      mret {| ra_success := true; modifiedCount := k |}
  | None => throw missing_appId
  end.

End Routes.

(** ** The running process: requests and socket events, one at a time *)
Module System.
Import Js Model Routes.

(** What the event loop dispatches.  A socket event names the session it
    arrives on. *)
Inductive request : Type :=
| POST (body : PostBody)
| GET (receiverId : string) (q : GetQuery)
| PATCH_read (id : nat)
| PATCH_read_all (receiverId : string) (q : ReadAllQuery)
| Subscribe (sid receiverId : string)
| Unsubscribe (sid receiverId : string)
| Disconnect (sid : string).

(** [initializeSocket(server)] runs at start-up, before any request. *)
Definition boot : world :=
  {| sockets := Sockets.initializeSocket Sockets.initial;
     db := {| docs := []; next_id := 0 |};
     events := [] |}.

Definition on_socket (f : Sockets.state → Sockets.state * list Sockets.emission)
    (w : world) : world :=
  let '(st, out) := f (sockets w) in
  {| sockets := st; db := db w; events := events w ++ (Emitted <$> out) |}.

(** One dispatch at time [now], run to completion before the next one
    starts; the response itself is dropped, the state it leaves is kept.
    For [Disconnect] the transport first takes the session out of its
    rooms, then the handler runs. *)
Definition step (w : world) (r : nat * request) : world :=
  let '(now, req) := r in
  match req with
  | POST body => (post now body w).2
  | GET receiverId q => (get receiverId q w).2
  | PATCH_read id => (patch_read id now w).2
  | PATCH_read_all receiverId q => (patch_read_all receiverId q now w).2
  | Subscribe sid receiverId => on_socket (Sockets.subscribe sid receiverId) w
  | Unsubscribe sid receiverId =>
    on_socket (λ st, (Sockets.unsubscribe sid receiverId st, [])) w
  | Disconnect sid =>
    on_socket (λ st,
      (Sockets.disconnect sid
         {| Sockets.io := Sockets.leave_all sid <$> Sockets.io st;
            Sockets.activeConnections := Sockets.activeConnections st |}, [])) w
  end.

Definition run (rs : list (nat * request)) (w : world) : world :=
  foldl step w rs.

(** Two stored documents are the same notification, up to the [read]
    flag and the [updatedAt] stamp. *)
Definition same_notification (a b : Notification) : Prop :=
  _id a = _id b ∧ receiverId a = receiverId b ∧ type a = type b
  ∧ payload a = payload b ∧ appId a = appId b ∧ senderId a = senderId b
  ∧ channel a = channel b ∧ createdAt a = createdAt b.

(** The dispatch [r] is the creation request that [n] comes from: a POST
    for the receiver of [n], carrying the [appId] of [n] (or none). *)
Definition created_by (r : nat * request) (n : Notification) : Prop :=
  ∃ body, r.2 = POST body
          ∧ body_receiverId body = Some (receiverId n)
          ∧ body_appId body = appId n.

(** A filter value supplied in the query string narrows a field to it,
    unless it is empty. *)
Definition narrowed_by (supplied : option string) (v : string) : Prop :=
  match supplied with
  | Some t => t ≠ EmptyString → v = t
  | None => True
  end.

#[global] Instance narrowed_by_dec supplied v : Decision (narrowed_by supplied v).
Proof. destruct supplied; apply _. Defined.

(** The scope of [markAllRead]: the documents of the receiver and the
    application that are unread, narrowed by each [type] and [channel]
    supplied. *)
Definition in_scope (receiverId appId : string) (ty ch : option string)
    (n : Notification) : Prop :=
  Model.receiverId n = receiverId
  ∧ Model.appId n = Some appId
  ∧ read n = false
  ∧ narrowed_by ty (type n)
  ∧ narrowed_by ch (channel n).

#[global] Instance in_scope_dec receiverId appId ty ch n :
  Decision (in_scope receiverId appId ty ch n).
Proof. apply _. Defined.

End System.

(** ** A worked scenario: one receiver, one application *)
Module Demo.
Import Js Model Routes System.

(** [{ receiverId: "u1", type: "chat", appId: "app1" }] *)
Definition body_app1 : PostBody :=
  {| body_receiverId := Some "u1"; body_type := Some "chat";
     body_payload := None; body_appId := Some "app1";
     body_senderId := None; body_channel := None |}.

(** The same request without [appId]. *)
Definition body_no_appId : PostBody :=
  {| body_receiverId := Some "u1"; body_type := Some "chat";
     body_payload := None; body_appId := None;
     body_senderId := None; body_channel := None |}.

(** What the first creation at time 5 stores, with or without [appId]. *)
Definition stored (a : option string) : Notification :=
  {| _id := 0; receiverId := "u1"; type := "chat"; payload := JObj [];
     read := false; appId := a; senderId := None; channel := "default";
     createdAt := 5; updatedAt := 5 |}.

(** [?appId=app1], nothing else. *)
Definition query_app1 : GetQuery :=
  {| q_unreadOnly := None; q_type := None; q_channel := None;
     q_appId := Some "app1"; q_limit := None; q_skip := None |}.

Definition read_all_app1 : ReadAllQuery :=
  {| ra_type := None; ra_channel := None; ra_appId := Some "app1" |}.

(** The first request of the scenario, at time 5. *)
Definition first_request : list (nat * request) := [(5, POST body_app1)].

(** The process after the first creation. *)
Definition created : world := (post 5 body_app1 boot).2.

Definition created_no_appId : world := (post 5 body_no_appId boot).2.

(** What [GET /u1?appId=app1] answers then. *)
Definition listed : GetResponse :=
  {| notifications := [stored (Some "app1")];
     total := 1; unreadCount := 1; isOnline := false |}.

(** The process after [PATCH /u1/read-all?appId=app1] at time 9. *)
Definition all_read : world :=
  (patch_read_all "u1" read_all_app1 9 created).2.

(** The process after [PATCH /0/read] at time 6. *)
Definition marked : world := (patch_read 0 6 created).2.

(** Later traffic: the same notification marked again, a bulk mark, a
    second creation, a session that comes and goes, a listing. *)
Definition history : list (nat * request) :=
  [(7, PATCH_read 0);
   (8, PATCH_read_all "u1" read_all_app1);
   (9, POST body_app1);
   (10, Subscribe "s1" "u1");
   (11, Disconnect "s1");
   (12, GET "u1" query_app1)].


(** A creation request with no field at all. *)
Definition body_empty : PostBody :=
  {| body_receiverId := None; body_type := None;
     body_payload := None; body_appId := None;
     body_senderId := None; body_channel := None |}.

(** What [GET /u1?appId=app1] answers before anything was created. *)
Definition nothing_listed : GetResponse :=
  {| notifications := []; total := 0; unreadCount := 0; isOnline := false |}.

(** The process before [initializeSocket] has run. *)
Definition no_transport : world :=
  {| sockets := Sockets.initial;
     db := {| docs := []; next_id := 0 |};
     events := [] |}.

End Demo.

(** * Properties *)

(** ** The connection registry *)
Section registry.
Import Js Sockets.
Implicit Types (sid receiverId : string) (st : state).
Implicit Types (tracked : gmap string (gset string)).

(** The loop of the [disconnect] handler, entry by entry: a key of the
    list ends with its set minus [sid], or deleted when that is empty; a key
    outside the list keeps what it had. *)
Lemma disconnect_loop_lookup sid (l : list (string * gset string)) tracked receiverId :
  NoDup l.*1 →
  foldl (disconnect_entry sid) tracked l !! receiverId =
    match (list_to_map l : gmap string (gset string)) !! receiverId with
    | Some sockets =>
      if decide (size (sockets ∖ {[sid]}) = 0) then None
      else Some (sockets ∖ {[sid]})
    | None => tracked !! receiverId
    end.
Proof.
  revert tracked. induction l as [|[k s] l IH]; intros tracked Hnd.
  - cbn. by rewrite lookup_empty.
  - rewrite fmap_cons in Hnd. apply NoDup_cons in Hnd as [Hk Hnd].
    cbn [foldl]. rewrite IH by done. cbn [list_to_map foldr uncurry fst snd] in *.
    destruct (decide (k = receiverId)) as [->|Hne].
    + rewrite lookup_insert_eq.
      rewrite (not_elem_of_list_to_map_1 l receiverId) by done.
      unfold disconnect_entry. cbn beta iota.
      destruct (decide (size (s ∖ {[sid]}) = 0)).
      * by rewrite lookup_delete_eq.
      * by rewrite lookup_insert_eq.
    + rewrite lookup_insert_ne by done.
      destruct (list_to_map l !! receiverId); [done|].
      unfold disconnect_entry.
      destruct (decide (size (s ∖ {[sid]}) = 0)).
      * by rewrite lookup_delete_ne.
      * by rewrite lookup_insert_ne.
Qed.

Lemma disconnect_lookup sid st receiverId :
  activeConnections (disconnect sid st) !! receiverId =
    match activeConnections st !! receiverId with
    | Some sockets =>
      if decide (size (sockets ∖ {[sid]}) = 0) then None
      else Some (sockets ∖ {[sid]})
    | None => None
    end.
Proof.
  unfold disconnect; cbn [activeConnections].
  rewrite disconnect_loop_lookup by apply NoDup_fst_map_to_list.
  rewrite list_to_map_to_list.
  by destruct (activeConnections st !! receiverId) eqn:E.
Qed.

Lemma size_pos_nonempty (s : gset string) : 0 < size s ↔ s ≠ ∅.
Proof.
  rewrite <-leibniz_equiv_iff, <-size_non_empty_iff. lia.
Qed.

Lemma isReceiverOnline_spec receiverId st :
  isReceiverOnline receiverId st = true ↔
  ∃ sockets, activeConnections st !! receiverId = Some sockets ∧ sockets ≠ ∅.
Proof.
  unfold isReceiverOnline.
  destruct (activeConnections st !! receiverId) as [s|].
  - rewrite bool_decide_eq_true, size_pos_nonempty. naive_solver.
  - naive_solver.
Qed.

(** After [disconnect], a receiver is online exactly when one of its
    sessions was another one. *)
Lemma disconnect_online sid st receiverId :
  isReceiverOnline receiverId (disconnect sid st) = true ↔
  ∃ sockets other,
    activeConnections st !! receiverId = Some sockets
    ∧ other ∈ sockets ∧ other ≠ sid.
Proof.
  rewrite isReceiverOnline_spec, disconnect_lookup.
  destruct (activeConnections st !! receiverId) as [s|]; [|naive_solver].
  case_decide as Hsz.
  - apply size_empty_iff in Hsz. split; [naive_solver|].
    intros (? & other & [= <-] & ? & ?). set_solver.
  - apply size_non_empty_iff in Hsz. split.
    + intros (? & [= <-] & Hne).
      apply set_choose_L in Hne as [other Hother].
      exists s, other. set_solver.
    + intros _. exists (s ∖ {[sid]}). split; [done|]. set_solver.
Qed.

(** [subscribe] keeps a registry free of empty sets that way. *)
Lemma subscribe_no_empty_set sid receiverId st :
  no_empty_set (activeConnections st) →
  no_empty_set (activeConnections (subscribe sid receiverId st).1).
Proof.
  intros Hinv. unfold subscribe.
  destruct (truthy_string receiverId); cbn; [|done].
  intros r s. destruct (decide (r = receiverId)) as [->|Hne].
  - rewrite lookup_alter_eq.
    destruct (activeConnections st !! receiverId) as [s0|] eqn:E.
    + rewrite E. cbn. intros [= <-]. set_solver.
    + rewrite lookup_insert_eq. cbn. intros [= <-]. set_solver.
  - rewrite lookup_alter_ne by done.
    destruct (activeConnections st !! receiverId).
    + apply Hinv.
    + rewrite lookup_insert_ne by done. apply Hinv.
Qed.

(** [disconnect] leaves no empty set, whatever the registry held. *)
Lemma disconnect_no_empty_set sid st :
  no_empty_set (activeConnections (disconnect sid st)).
Proof.
  intros r s. rewrite disconnect_lookup.
  destruct (activeConnections st !! r) as [s0|]; [|done].
  case_decide as Hsz; [done|]. intros [= <-].
  apply size_non_empty_iff in Hsz. set_solver.
Qed.

(** What [unsubscribe] leaves under the key it is given: the set without
    the session, kept even when empty. *)
Lemma unsubscribe_lookup sid receiverId st :
  activeConnections (unsubscribe sid receiverId st) !! receiverId =
    (λ sockets, sockets ∖ {[sid]}) <$> activeConnections st !! receiverId.
Proof.
  unfold unsubscribe; cbn.
  destruct (activeConnections st !! receiverId) eqn:E.
  - by rewrite lookup_alter_eq, E.
  - by rewrite E.
Qed.

(** The push reports whether the transport exists, nothing else. *)
Lemma sendNotification_result receiverId ev st :
  (sendNotification receiverId ev st).1 = bool_decide (is_Some (io st)).
Proof.
  unfold sendNotification. by destruct (io st).
Qed.

End registry.

(** ** The collection *)
Section collection.
Import Js Model.
Implicit Types (n : Notification) (q : filter_doc) (c : collection).
Implicit Types (l : list Notification).

Lemma truthy_string_true (s : string) : truthy_string s = true ↔ s ≠ EmptyString.
Proof. destruct s; cbn; naive_solver. Qed.

Lemma cond_true {A} `{EqDecision A} (o : option A) (v : A) :
  cond o v = true ↔ ∀ x, o = Some x → v = x.
Proof.
  destruct o as [x|]; cbn.
  - rewrite bool_decide_eq_true. naive_solver.
  - naive_solver.
Qed.

Lemma matches_true q n :
  matches q n = true ↔
    receiverId n = f_receiverId q
    ∧ appId n = Some (f_appId q)
    ∧ (∀ b, f_read q = Some b → read n = b)
    ∧ (∀ t, f_type q = Some t → type n = t)
    ∧ (∀ ch, f_channel q = Some ch → channel n = ch).
Proof.
  unfold matches. rewrite !andb_true_iff, !bool_decide_eq_true, !cond_true.
  naive_solver.
Qed.

Lemma elem_of_find q c n : n ∈ find q c ↔ n ∈ docs c ∧ matches q n = true.
Proof.
  unfold find. rewrite list_elem_of_filter, Is_true_true. naive_solver.
Qed.

Lemma elem_of_sort l n : n ∈ sort_createdAt_desc l ↔ n ∈ l.
Proof.
  unfold sort_createdAt_desc. by rewrite merge_sort_Permutation.
Qed.

Lemma limit_subseteq k l : limit k l ⊆ l.
Proof. destruct k; cbn [limit]; [done|apply subseteq_take]. Qed.

Lemma skip_subseteq k l : skip k l ⊆ l.
Proof. apply subseteq_drop. Qed.

(** An element at index [i] heads the page that skips [i], whatever the
    limit. *)
Lemma elem_of_page l i k n : l !! i = Some n → n ∈ limit k (skip i l).
Proof.
  intros Hi. unfold skip.
  assert (drop i l !! 0 = Some n) as H0.
  { by rewrite lookup_drop, Nat.add_0_r. }
  destruct k; cbn [limit].
  - eapply list_elem_of_lookup_2, H0.
  - apply elem_of_take. exists 0. split; [done|lia].
Qed.

(** [set_read] touches the flag and the stamp only. *)
Lemma matches_set_read_false q now n :
  f_read q = Some false → matches q (set_read now n) = false.
Proof.
  intros Hq. apply not_true_iff_false. rewrite matches_true.
  intros (_ & _ & Hr & _). by specialize (Hr _ Hq).
Qed.

Lemma update_by_id_lookup id now l :
  match list_find (λ n, _id n = id) l with
  | Some (i, n) =>
    update_by_id id now l = (Some (set_read now n), <[i := set_read now n]> l)
  | None => update_by_id id now l = (None, l)
  end.
Proof.
  induction l as [|m l IH]; [done|].
  cbn [update_by_id list_find]. case_decide as Hm.
  - done.
  - destruct (list_find _ l) as [[i n]|]; cbn; by rewrite IH.
Qed.

Lemma updateMany_lookup q now c i n :
  docs c !! i = Some n →
  docs (updateMany q now c).2 !! i =
    Some (if matches q n then set_read now n else n).
Proof.
  intros Hi. cbn. by rewrite list_lookup_fmap, Hi.
Qed.

Lemma updateMany_count q now c :
  f_read q = Some false →
  (updateMany q now c).1 = length (filter (λ n, matches q n) (docs c)).
Proof.
  intros Hq. cbn. f_equal. apply list_filter_iff. intros n.
  rewrite andb_True. split; [naive_solver|]. intros Hm. split; [done|].
  apply Is_true_true in Hm. apply matches_true in Hm as (_ & _ & Hr & _).
  unfold modified. rewrite (Hr _ Hq). done.
Qed.

Lemma updateMany_no_match q now c :
  (∀ n, n ∈ docs c → matches q n = false) →
  updateMany q now c = (0, c).
Proof.
  destruct c as [l k]. cbn [docs]. intros Hnone. unfold updateMany. cbn [docs next_id].
  induction l as [|m l IH]; [done|].
  assert (matches q m = false) as Hm by (apply Hnone; left).
  assert (∀ n, n ∈ l → matches q n = false) as Hl
    by (intros n ?; apply Hnone; by right).
  specialize (IH Hl). injection IH as Hlen Hdocs.
  rewrite filter_cons, fmap_cons, Hm, Hdocs. cbn.
  destruct (decide _) as [[]|_]. by rewrite Hlen.
Qed.

Lemma updateMany_again q now now' c :
  f_read q = Some false →
  updateMany q now' (updateMany q now c).2 = (0, (updateMany q now c).2).
Proof.
  intros Hq. apply updateMany_no_match.
  intros n. cbn. intros (m & -> & _)%list_elem_of_fmap.
  destruct (matches q m) eqn:E; [by apply matches_set_read_false|done].
Qed.

End collection.

(** ** The handlers *)
Section handlers.
Import Js Model Routes System.
Implicit Types (w : world) (n : Notification) (now : nat).
Implicit Types (body : PostBody) (rid ty : string).

(** A creation that passes the guard stores one document and then pushes
    its projection. *)
Lemma post_accepts now body w rid ty :
  body_receiverId body = Some rid → body_type body = Some ty →
  truthy_string rid = true → truthy_string ty = true →
  ∃ n,
    n = {| _id := next_id (db w);
           receiverId := rid;
           type := ty;
           payload := or_empty_object (body_payload body);
           read := false;
           appId := body_appId body;
           senderId := body_senderId body;
           channel := default "default" (body_channel body);
           createdAt := now;
           updatedAt := now |}
    ∧ post now body w =
      (inr {| post_status := 201;
              post_success := true;
              post_notification := n;
              post_delivered :=
                (Sockets.sendNotification rid (push_event n) (sockets w)).1 |},
       {| sockets := sockets w;
          db := {| docs := docs (db w) ++ [n]; next_id := S (next_id (db w)) |};
          events := (events w ++ [Persisted n]) ++
            (Emitted <$> (Sockets.sendNotification rid (push_event n) (sockets w)).2) |}).
Proof.
  intros Hr Ht Hrt Htt. eexists. split; [reflexivity|].
  unfold post. rewrite Hr, Ht, Hrt, Htt. cbn.
  unfold mbind, M_bind, Notification_create, create, required. cbn.
  rewrite Hrt, Htt. cbn.
  unfold sendNotification. cbn.
  by destruct (Sockets.sendNotification _ _ _).
Qed.

Lemma post_rejects now body w :
  truthy_opt (body_receiverId body) = false ∨ truthy_opt (body_type body) = false →
  post now body w = (inl missing_fields, w).
Proof.
  unfold post.
  destruct (body_receiverId body) as [rid|], (body_type body) as [ty|]; cbn;
    try done.
  intros [-> | ->]; by rewrite ?orb_true_r.
Qed.

(** The two cases are all there is. *)
Lemma post_cases now body w :
  (truthy_opt (body_receiverId body) = false ∨ truthy_opt (body_type body) = false)
  ∨ (∃ rid ty, body_receiverId body = Some rid ∧ body_type body = Some ty
       ∧ truthy_string rid = true ∧ truthy_string ty = true).
Proof.
  destruct (body_receiverId body) as [rid|]; [|left; by left].
  destruct (body_type body) as [ty|]; [|left; by right].
  destruct (truthy_string rid) eqn:Hr; [|left; by left].
  destruct (truthy_string ty) eqn:Ht; [|left; by right].
  right. by exists rid, ty.
Qed.

Lemma get_answers receiverId (q : GetQuery) w X :
  q_appId q = Some X → truthy_string X = true →
  get receiverId q w =
    (inr {| notifications :=
              limit (default 50 (q_limit q)) (skip (default 0 (q_skip q))
                (sort_createdAt_desc (find
                  {| f_receiverId := receiverId;
                     f_appId := X;
                     f_read := if bool_decide (q_unreadOnly q = Some "true")
                               then Some false else None;
                     f_type := when_truthy (q_type q);
                     f_channel := when_truthy (q_channel q) |} (db w))));
            total := countDocuments
              {| f_receiverId := receiverId; f_appId := X;
                 f_read := None; f_type := None; f_channel := None |} (db w);
            unreadCount := countDocuments
              {| f_receiverId := receiverId; f_appId := X;
                 f_read := Some false; f_type := None; f_channel := None |} (db w);
            isOnline := Sockets.isReceiverOnline receiverId (sockets w) |}, w).
Proof.
  intros Ha Ht. unfold get. by rewrite Ha, Ht.
Qed.

Lemma get_rejects receiverId (q : GetQuery) w :
  truthy_opt (q_appId q) = false → get receiverId q w = (inl missing_appId, w).
Proof.
  unfold get. destruct (q_appId q) as [X|]; cbn; [|done]. by intros ->.
Qed.

(** A list call answers only for a non-empty [appId]. *)
Lemma get_inv receiverId (q : GetQuery) w resp w' :
  get receiverId q w = (inr resp, w') →
  ∃ X, q_appId q = Some X ∧ truthy_string X = true.
Proof.
  intros Hget. destruct (truthy_opt (q_appId q)) eqn:E.
  - destruct (q_appId q) as [X|]; [|done]. by exists X.
  - by rewrite get_rejects in Hget.
Qed.

Lemma when_truthy_Some (v : option string) t :
  when_truthy v = Some t ↔ v = Some t ∧ t ≠ EmptyString.
Proof.
  unfold when_truthy. destruct v as [s|]; cbn; [|naive_solver].
  destruct (truthy_string s) eqn:E.
  - apply truthy_string_true in E. naive_solver.
  - apply not_true_iff_false in E. rewrite truthy_string_true in E.
    naive_solver.
Qed.

Lemma patch_read_all_answers receiverId (q : ReadAllQuery) now w X :
  ra_appId q = Some X → truthy_string X = true →
  patch_read_all receiverId q now w =
    let query := {| f_receiverId := receiverId;
                    f_appId := X;
                    f_read := Some false;
                    f_type := when_truthy (ra_type q);
                    f_channel := when_truthy (ra_channel q) |} in
    (inr {| ra_success := true;
            modifiedCount := (updateMany query now (db w)).1 |},
     {| sockets := sockets w;
        db := (updateMany query now (db w)).2;
        events := events w |}).
Proof.
  intros Ha Ht. unfold patch_read_all. by rewrite Ha, Ht.
Qed.

Lemma patch_read_all_rejects receiverId (q : ReadAllQuery) now w :
  truthy_opt (ra_appId q) = false →
  patch_read_all receiverId q now w = (inl missing_appId, w).
Proof.
  unfold patch_read_all. destruct (ra_appId q) as [X|]; cbn; [|done].
  by intros ->.
Qed.

Lemma patch_read_found id now w i n :
  list_find (λ m, _id m = id) (docs (db w)) = Some (i, n) →
  patch_read id now w =
    (inr {| read_success := true; read_notification := set_read now n |},
     {| sockets := sockets w;
        db := {| docs := <[i := set_read now n]> (docs (db w));
                 next_id := next_id (db w) |};
        events := events w |}).
Proof.
  intros Hfind. pose proof (update_by_id_lookup id now (docs (db w))) as Hu.
  rewrite Hfind in Hu.
  unfold patch_read, mbind, M_bind, Notification_findByIdAndUpdate,
    findByIdAndUpdate. by rewrite Hu.
Qed.

Lemma patch_read_missing id now w :
  list_find (λ m, _id m = id) (docs (db w)) = None →
  patch_read id now w =
    (inl (Api (ApiError.notFound "Notification not found")), w).
Proof.
  intros Hfind. pose proof (update_by_id_lookup id now (docs (db w))) as Hu.
  rewrite Hfind in Hu.
  unfold patch_read, mbind, M_bind, Notification_findByIdAndUpdate,
    findByIdAndUpdate. rewrite Hu. cbn. by destruct w as [? [] ?].
Qed.

(** *** Stored documents across dispatches *)

Lemma same_notification_refl n : same_notification n n.
Proof. by repeat split. Qed.

Lemma same_notification_set_read now n : same_notification n (set_read now n).
Proof. by repeat split. Qed.

Lemma same_notification_trans n1 n2 n3 :
  same_notification n1 n2 → same_notification n2 n3 → same_notification n1 n3.
Proof. unfold same_notification. intros. intuition congruence. Qed.

(** A stored document keeps its place and its identity through one
    dispatch, and a raised [read] flag with it. *)
Lemma step_keeps_document w (r : nat * request) i n :
  docs (db w) !! i = Some n →
  ∃ n', docs (db (step w r)) !! i = Some n'
        ∧ same_notification n n' ∧ (read n = true → read n' = true).
Proof.
  intros Hi. destruct r as [now [body|receiverId q|id|receiverId q|sid receiverId|sid receiverId|sid]];
    cbn [step].
  - (* POST *)
    destruct (post_cases now body w) as [Hbad|(rid & ty & Hr & Ht & Hrt & Htt)].
    + rewrite post_rejects by done. exists n. eauto using same_notification_refl.
    + destruct (post_accepts now body w rid ty Hr Ht Hrt Htt) as (n0 & _ & ->).
      cbn. exists n. rewrite lookup_app_l by (by eapply lookup_lt_Some).
      eauto using same_notification_refl.
  - (* GET *)
    assert ((get receiverId q w).2 = w) as ->.
    { destruct (truthy_opt (q_appId q)) eqn:E.
      - destruct (q_appId q) as [X|] eqn:Ha; [|done].
        by rewrite (get_answers receiverId q w X).
      - by rewrite get_rejects. }
    exists n. eauto using same_notification_refl.
  - (* PATCH /:id/read *)
    destruct (list_find (λ m, _id m = id) (docs (db w))) as [[j m]|] eqn:Hfind.
    + rewrite (patch_read_found id now w j m Hfind). cbn.
      apply list_find_Some in Hfind as (Hj & _ & _).
      destruct (decide (j = i)) as [->|Hne].
      * assert (m = n) as -> by congruence.
        exists (set_read now n).
        rewrite list_lookup_insert_eq by (by eapply lookup_lt_Some).
        eauto using same_notification_set_read.
      * exists n. rewrite list_lookup_insert_ne by done.
        eauto using same_notification_refl.
    + rewrite (patch_read_missing id now w Hfind). exists n.
      eauto using same_notification_refl.
  - (* PATCH /:receiverId/read-all *)
    destruct (truthy_opt (ra_appId q)) eqn:E.
    + destruct (ra_appId q) as [X|] eqn:Ha; [|done].
      rewrite (patch_read_all_answers receiverId q now w X) by done.
      cbn [snd db]. rewrite (updateMany_lookup _ _ _ _ _ Hi).
      destruct (matches _ n).
      * exists (set_read now n). eauto using same_notification_set_read.
      * exists n. eauto using same_notification_refl.
    + rewrite patch_read_all_rejects by done. exists n.
      eauto using same_notification_refl.
  - unfold on_socket. destruct (Sockets.subscribe _ _ _). cbn.
    exists n. eauto using same_notification_refl.
  - cbn. exists n. eauto using same_notification_refl.
  - cbn. exists n. eauto using same_notification_refl.
Qed.

Lemma run_keeps_document (rs : list (nat * request)) w i n :
  docs (db w) !! i = Some n →
  ∃ n', docs (db (run rs w)) !! i = Some n'
        ∧ same_notification n n' ∧ (read n = true → read n' = true).
Proof.
  revert w n. induction rs as [|r rs IH]; intros w n Hi.
  - exists n. eauto using same_notification_refl.
  - destruct (step_keeps_document w r i n Hi) as (n1 & H1 & Hs1 & Hr1).
    destruct (IH (step w r) n1 H1) as (n2 & H2 & Hs2 & Hr2).
    exists n2. cbn [run foldl]. split; [done|].
    split; [by eapply same_notification_trans|auto].
Qed.

(** *** Where stored documents come from *)

Lemma created_by_same r n n' :
  same_notification n n' → created_by r n → created_by r n'.
Proof.
  intros (_ & Hrid & _ & _ & Happ & _) (body & Hr & Hb & Ha).
  exists body. rewrite <-Hrid, <-Happ. done.
Qed.

(** After one dispatch every stored document is one that was stored
    before, or the one this dispatch created. *)
Lemma step_origin w (r : nat * request) n' :
  n' ∈ docs (db (step w r)) →
  (∃ n, n ∈ docs (db w) ∧ same_notification n n') ∨ created_by r n'.
Proof.
  assert (n' ∈ docs (db w) →
    (∃ n, n ∈ docs (db w) ∧ same_notification n n') ∨ created_by r n') as Hold.
  { intros Hin. left. exists n'. eauto using same_notification_refl. }
  destruct r as [now [body|receiverId q|id|receiverId q|sid receiverId|sid receiverId|sid]];
    cbn [step].
  - (* POST *)
    destruct (post_cases now body w) as [Hbad|(rid & ty & Hr & Ht & Hrt & Htt)].
    + by rewrite post_rejects.
    + destruct (post_accepts now body w rid ty Hr Ht Hrt Htt) as (n0 & Hn0 & ->).
      cbn. intros [Hin|Hnew%list_elem_of_singleton]%elem_of_app; [auto|].
      right. exists body. subst n' n0. done.
  - (* GET *)
    assert ((get receiverId q w).2 = w) as ->; [|done].
    destruct (truthy_opt (q_appId q)) eqn:E.
    + destruct (q_appId q) as [X|] eqn:Ha; [|done].
      by rewrite (get_answers receiverId q w X).
    + by rewrite get_rejects.
  - (* PATCH /:id/read *)
    destruct (list_find (λ m, _id m = id) (docs (db w))) as [[j m]|] eqn:Hfind.
    + rewrite (patch_read_found id now w j m Hfind). cbn.
      apply list_find_Some in Hfind as (Hj & _ & _).
      intros [i Hi]%list_elem_of_lookup.
      destruct (decide (j = i)) as [->|Hne].
      * rewrite list_lookup_insert_eq in Hi by (by eapply lookup_lt_Some).
        injection Hi as <-. left. exists m. split.
        -- by eapply list_elem_of_lookup_2.
        -- apply same_notification_set_read.
      * rewrite list_lookup_insert_ne in Hi by done.
        apply Hold. by eapply list_elem_of_lookup_2.
    + by rewrite (patch_read_missing id now w Hfind).
  - (* PATCH /:receiverId/read-all *)
    destruct (truthy_opt (ra_appId q)) eqn:E.
    + destruct (ra_appId q) as [X|] eqn:Ha; [|done].
      rewrite (patch_read_all_answers receiverId q now w X) by done.
      cbn. intros (n & -> & Hin)%list_elem_of_fmap.
      left. exists n. split; [done|].
      destruct (matches _ n);
        auto using same_notification_set_read, same_notification_refl.
    + by rewrite patch_read_all_rejects.
  - unfold on_socket. by destruct (Sockets.subscribe _ _ _).
  - done.
  - done.
Qed.

Lemma run_origin (rs : list (nat * request)) w n' :
  n' ∈ docs (db (run rs w)) →
  (∃ n, n ∈ docs (db w) ∧ same_notification n n')
  ∨ (∃ r, r ∈ rs ∧ created_by r n').
Proof.
  revert w. induction rs as [|r rs IH]; intros w Hin.
  - left. exists n'. eauto using same_notification_refl.
  - destruct (IH (step w r) Hin) as [(n1 & Hin1 & Hs1)|(r' & Hr' & Hc)].
    + destruct (step_origin w r n1 Hin1) as [(n & Hn & Hs)|Hc].
      * left. exists n. eauto using same_notification_trans.
      * right. exists r. split; [left|]. by eapply created_by_same.
    + right. exists r'. split; [by right|done].
Qed.

End handlers.

(** ** Presence and push *)
Section presence.
Import Js Model Sockets.

(** C1. With the transport initialized, the push answers [true] for a
    receiver the registry shows offline: at start-up nobody is subscribed,
    [isReceiverOnline "u1"] is [false], the push to ["u1"] reaches an empty
    room and still returns [true], and creating a notification for ["u1"]
    is answered 201 with [delivered = true]. *)
Example push_reports_delivered_to_offline_receiver :
  isReceiverOnline "u1" (Routes.sockets System.boot) = false
  ∧ sendNotification "u1"
      (Routes.push_event (Demo.stored (Some "app1")))
      (Routes.sockets System.boot)
    = (true,
       [ToRoom "u1" ∅
          (MsgNotification (Routes.push_event (Demo.stored (Some "app1"))))])
  ∧ (Routes.post 5 Demo.body_app1 System.boot).1
    = inr {| Routes.post_status := 201;
             Routes.post_success := true;
             Routes.post_notification := Demo.stored (Some "app1");
             Routes.post_delivered := true |}.
Proof. by vm_compute. Qed.

(** C2. [unsubscribe] leaves an empty set in the registry: once session
    ["s1"] has subscribed to ["u1"] and unsubscribed again, the key ["u1"]
    is still present and maps to the empty set. *)
Example unsubscribe_keeps_empty_set :
  activeConnections
    (Routes.sockets
       (System.run [(1, System.Subscribe "s1" "u1");
                    (2, System.Unsubscribe "s1" "u1")] System.boot))
    !! "u1" = Some ∅
  ∧ ¬ no_empty_set
        (activeConnections
           (Routes.sockets
              (System.run [(1, System.Subscribe "s1" "u1");
                           (2, System.Unsubscribe "s1" "u1")] System.boot))).
Proof.
  assert (activeConnections
    (Routes.sockets
       (System.run [(1, System.Subscribe "s1" "u1");
                    (2, System.Unsubscribe "s1" "u1")] System.boot))
    !! "u1" = Some ∅) as Hlook by (by vm_compute).
  split; [done|]. intros Hinv. by apply (Hinv _ _ Hlook).
Qed.

(** C3. [isReceiverOnline] is true exactly when the receiver has a
    non-empty set in the registry.  After the [disconnect] handler ran for
    session [sid], a receiver is offline exactly when [sid] was all that
    its set held (or it had no set), and online exactly when its set held
    some other session. *)
Theorem disconnect_presence (sid receiverId : string) (st : state) :
  (isReceiverOnline receiverId st = true ↔
     ∃ sockets, activeConnections st !! receiverId = Some sockets ∧ sockets ≠ ∅)
  ∧ (isReceiverOnline receiverId (disconnect sid st) = false ↔
       ∀ sockets, activeConnections st !! receiverId = Some sockets →
                  sockets ⊆ {[sid]})
  ∧ (isReceiverOnline receiverId (disconnect sid st) = true ↔
       ∃ sockets other, activeConnections st !! receiverId = Some sockets
                        ∧ other ∈ sockets ∧ other ≠ sid).
Proof.
  split; [apply isReceiverOnline_spec|].
  split; [|apply disconnect_online].
  rewrite <-not_true_iff_false, disconnect_online. split.
  - intros Hno sockets Hs other Hin. apply elem_of_singleton.
    destruct (decide (other = sid)); [done|]. destruct Hno; eauto.
  - intros Hall (sockets & other & Hs & Hin & Hne).
    specialize (Hall _ Hs _ Hin). set_solver.
Qed.

End presence.

(** ** Creation *)
Section creation.
Import Js Model Routes System.
Implicit Types (w : world) (n : Notification) (now : nat) (body : PostBody).

(** C8. The creation route raises exactly when [receiverId] or [type] is
    missing or empty, and what it raises then is the bad-request error,
    status 400; when both are present and non-empty it answers 201 with
    [success], the notification and [delivered]. *)
Theorem post_validation now body w :
  ((post now body w).1 = inl missing_fields ↔
     truthy_opt (body_receiverId body) = false
     ∨ truthy_opt (body_type body) = false)
  ∧ ((∃ n delivered,
        (post now body w).1 =
          inr {| post_status := 201; post_success := true;
                 post_notification := n; post_delivered := delivered |}) ↔
       truthy_opt (body_receiverId body) = true
       ∧ truthy_opt (body_type body) = true)
  ∧ (∃ text, missing_fields = Api (ApiError.badRequest text)
             ∧ ApiError.status (ApiError.badRequest text) = 400).
Proof.
  split; [|split].
  - split; [|intros Hbad; by rewrite post_rejects].
    destruct (post_cases now body w) as [Hbad|(rid & ty & Hr & Ht & Hrt & Htt)];
      [done|].
    destruct (post_accepts now body w rid ty Hr Ht Hrt Htt) as (n & _ & ->).
    done.
  - split.
    + intros (n & d & Hpost).
      destruct (post_cases now body w) as [Hbad|(rid & ty & Hr & Ht & Hrt & Htt)].
      * by rewrite post_rejects in Hpost.
      * by rewrite Hr, Ht.
    + intros [Hr Ht].
      destruct (body_receiverId body) as [rid|] eqn:Er; [|done].
      destruct (body_type body) as [ty|] eqn:Et; [|done].
      destruct (post_accepts now body w rid ty Er Et Hr Ht) as (n & _ & ->).
      eauto.
  - eexists. split; reflexivity.
Qed.

(** C9. A creation that succeeds returns an entity that is unread, whose
    channel is ["default"] when the request had none, and whose payload is
    the empty object when the request had none. *)
Theorem post_defaults now body w resp w' :
  post now body w = (inr resp, w') →
  read (post_notification resp) = false
  ∧ (body_channel body = None → channel (post_notification resp) = "default")
  ∧ (body_payload body = None → payload (post_notification resp) = JObj []).
Proof.
  intros Hpost.
  destruct (post_cases now body w) as [Hbad|(rid & ty & Hr & Ht & Hrt & Htt)].
  { by rewrite post_rejects in Hpost. }
  destruct (post_accepts now body w rid ty Hr Ht Hrt Htt) as (n & -> & Heq).
  rewrite Heq in Hpost. injection Hpost as <- <-. cbn.
  split; [done|]. split; by intros ->.
Qed.

Lemma post_defaults_witness :
  post 5 Demo.body_app1 boot
    = (inr {| post_status := 201; post_success := true;
              post_notification := Demo.stored (Some "app1");
              post_delivered := true |}, Demo.created)
  ∧ body_channel Demo.body_app1 = None
  ∧ body_payload Demo.body_app1 = None
  ∧ read (Demo.stored (Some "app1")) = false
  ∧ channel (Demo.stored (Some "app1")) = "default"
  ∧ payload (Demo.stored (Some "app1")) = JObj [].
Proof.
  assert (post 5 Demo.body_app1 boot
    = (inr {| post_status := 201; post_success := true;
              post_notification := Demo.stored (Some "app1");
              post_delivered := true |}, Demo.created))
    as Hpost by (by vm_compute).
  split; [exact Hpost|]. split; [reflexivity|]. split; [reflexivity|].
  destruct (post_defaults _ _ _ _ _ Hpost) as (Hread & Hchan & Hpay).
  split; [exact Hread|]. split; [exact (Hchan eq_refl)|exact (Hpay eq_refl)].
Defined.

End creation.

(** ** Listing *)
Section listing.
Import Js Model Routes System.
Implicit Types (w : world) (n : Notification) (now : nat).
Implicit Types (q : GetQuery) (receiverId : string).

(** Every notification of a list answer is a stored document that
    satisfies the filter the route built. *)
Lemma get_notifications receiverId q w resp w' n :
  get receiverId q w = (inr resp, w') →
  n ∈ notifications resp →
  ∃ X, q_appId q = Some X ∧ X ≠ EmptyString
       ∧ n ∈ docs (db w)
       ∧ Model.receiverId n = receiverId
       ∧ appId n = Some X
       ∧ (q_unreadOnly q = Some "true" → read n = false)
       ∧ (∀ t, q_type q = Some t → t ≠ EmptyString → type n = t)
       ∧ (∀ ch, q_channel q = Some ch → ch ≠ EmptyString → channel n = ch).
Proof.
  intros Hget Hn. destruct (get_inv _ _ _ _ _ Hget) as (X & Ha & Ht).
  rewrite (get_answers receiverId q w X Ha Ht) in Hget.
  injection Hget as <- <-. cbn in Hn.
  apply limit_subseteq, skip_subseteq, elem_of_sort, elem_of_find in Hn
    as [Hdoc Hm].
  apply matches_true in Hm as (Hrid & Happ & Hread & Hty & Hch). cbn in *.
  exists X. split; [done|]. split; [by apply truthy_string_true|].
  repeat split; try done.
  - intros Hu. apply Hread. by rewrite bool_decide_eq_true_2.
  - intros t Hq Hne. apply Hty, when_truthy_Some. done.
  - intros ch Hq Hne. apply Hch, when_truthy_Some. done.
Qed.

(** C6. After any history of requests and socket events since start-up,
    a list answer for [appId = X] holds only notifications of that receiver
    whose [appId] is exactly [X], each created by a request of the history
    that carried [appId = X]: none created with another [appId], none
    created without one. *)
Theorem list_only_same_appId (rs : list (nat * request)) receiverId q resp w' n :
  get receiverId q (run rs boot) = (inr resp, w') →
  n ∈ notifications resp →
  ∃ X, q_appId q = Some X ∧ appId n = Some X
       ∧ Model.receiverId n = receiverId
       ∧ ∃ now body, (now, POST body) ∈ rs
                     ∧ body_receiverId body = Some receiverId
                     ∧ body_appId body = Some X.
Proof.
  intros Hget Hn.
  destruct (get_notifications _ _ _ _ _ _ Hget Hn)
    as (X & Ha & _ & Hdoc & Hrid & Happ & _).
  exists X. split; [done|]. split; [done|]. split; [done|].
  destruct (run_origin rs boot n Hdoc) as [(n0 & Hn0 & _)|(r & Hr & Hc)].
  - cbn in Hn0. by apply elem_of_nil in Hn0.
  - destruct r as [now req]. destruct Hc as (body & Hreq & Hb & Hbapp).
    cbn in Hreq. subst req. exists now, body.
    by rewrite Hb, Hbapp, Hrid, Happ.
Qed.

(** C10. In a list answer, [total] counts the stored notifications of the
    receiver and the application, [unreadCount] those of them that are
    unread; any other query of the same receiver and application gets the
    same two counts, whatever its [unreadOnly], [type], [channel], [limit]
    and [skip]; those filters bear on the [notifications] array. *)
Theorem list_counts_ignore_filters receiverId q w resp w' :
  get receiverId q w = (inr resp, w') →
  ∃ X, q_appId q = Some X
    ∧ total resp =
        length (filter (λ n, Model.receiverId n = receiverId ∧ appId n = Some X)
                       (docs (db w)))
    ∧ unreadCount resp =
        length (filter (λ n, Model.receiverId n = receiverId ∧ appId n = Some X
                             ∧ read n = false)
                       (docs (db w)))
    ∧ (∀ q', q_appId q' = Some X →
         ∃ resp', get receiverId q' w = (inr resp', w)
                  ∧ total resp' = total resp
                  ∧ unreadCount resp' = unreadCount resp)
    ∧ (∀ n, n ∈ notifications resp →
         Model.receiverId n = receiverId ∧ appId n = Some X
         ∧ (q_unreadOnly q = Some "true" → read n = false)
         ∧ (∀ t, q_type q = Some t → t ≠ EmptyString → type n = t)
         ∧ (∀ ch, q_channel q = Some ch → ch ≠ EmptyString → channel n = ch)).
Proof.
  intros Hget. destruct (get_inv _ _ _ _ _ Hget) as (X & Ha & Ht).
  exists X. split; [done|].
  assert (∀ n, n ∈ notifications resp →
    Model.receiverId n = receiverId ∧ appId n = Some X
    ∧ (q_unreadOnly q = Some "true" → read n = false)
    ∧ (∀ t, q_type q = Some t → t ≠ EmptyString → type n = t)
    ∧ (∀ ch, q_channel q = Some ch → ch ≠ EmptyString → channel n = ch)) as Hns.
  { intros n Hn.
    destruct (get_notifications _ _ _ _ _ _ Hget Hn)
      as (X' & Ha' & _ & _ & ? & ? & ? & ? & ?).
    assert (X' = X) as -> by congruence. done. }
  rewrite (get_answers receiverId q w X Ha Ht) in Hget.
  injection Hget as <- <-. cbn [total unreadCount].
  split; [|split; [|split; [|done]]].
  - unfold countDocuments, find. f_equal. apply list_filter_iff. intros n.
    rewrite Is_true_true, matches_true. cbn. naive_solver.
  - unfold countDocuments, find. f_equal. apply list_filter_iff. intros n.
    rewrite Is_true_true, matches_true. cbn. naive_solver.
  - intros q' Ha'. eexists. rewrite (get_answers receiverId q' w X Ha' Ht).
    split; [reflexivity|]. done.
Qed.

End listing.

(** ** Marking as read *)
Section marking.
Import Js Model Routes System.
Implicit Types (w : world) (n : Notification) (now : nat).
Implicit Types (receiverId : string).

Lemma narrowed_by_when_truthy (supplied : option string) (v : string) :
  (∀ t, when_truthy supplied = Some t → v = t) ↔ narrowed_by supplied v.
Proof.
  unfold narrowed_by. destruct supplied as [s|].
  - split.
    + intros H Hne. apply H, when_truthy_Some. done.
    + intros H t (Hs & Hne)%when_truthy_Some. injection Hs as ->. auto.
  - split; [done|]. by intros _ t (? & _)%when_truthy_Some.
Qed.

(** The filter the bulk route builds selects the scope of [markAllRead]. *)
Lemma matches_in_scope receiverId X (ty ch : option string) n :
  matches {| f_receiverId := receiverId; f_appId := X; f_read := Some false;
             f_type := when_truthy ty; f_channel := when_truthy ch |} n = true
  ↔ in_scope receiverId X ty ch n.
Proof.
  rewrite matches_true. unfold in_scope. cbn.
  rewrite !narrowed_by_when_truthy. naive_solver.
Qed.

(** C4. A bulk mark-as-read that is answered leaves the collection with
    the same documents in the same places, where exactly those in scope
    (receiver, application, unread, narrowed by the supplied [type] and
    [channel]) now have [read = true] and every other one is as it was;
    [modifiedCount] is the number in scope, and the same call made again
    right after is answered with [modifiedCount = 0] and changes
    nothing. *)
Theorem markAllRead_scope receiverId (q : ReadAllQuery) now w resp w' :
  patch_read_all receiverId q now w = (inr resp, w') →
  ∃ X, ra_appId q = Some X ∧ X ≠ EmptyString
    ∧ length (docs (db w')) = length (docs (db w))
    ∧ (∀ i n, docs (db w) !! i = Some n →
         (in_scope receiverId X (ra_type q) (ra_channel q) n →
            ∃ n', docs (db w') !! i = Some n'
                  ∧ read n' = true ∧ same_notification n n')
         ∧ (¬ in_scope receiverId X (ra_type q) (ra_channel q) n →
            docs (db w') !! i = Some n))
    ∧ modifiedCount resp =
        length (filter (in_scope receiverId X (ra_type q) (ra_channel q))
                       (docs (db w)))
    ∧ (∀ now', patch_read_all receiverId q now' w' =
                 (inr {| ra_success := true; modifiedCount := 0 |}, w')).
Proof.
  intros Hcall.
  destruct (truthy_opt (ra_appId q)) eqn:E;
    [|by rewrite patch_read_all_rejects in Hcall].
  destruct (ra_appId q) as [X|] eqn:Ha; [|done]. cbn in E.
  rewrite (patch_read_all_answers receiverId q now w X Ha E) in Hcall.
  cbn zeta in Hcall.
  set (query := {| f_receiverId := receiverId; f_appId := X;
                   f_read := Some false;
                   f_type := when_truthy (ra_type q);
                   f_channel := when_truthy (ra_channel q) |}) in *.
  remember (updateMany query now (db w)) as r eqn:Hr.
  injection Hcall as <- <-. cbn [db modifiedCount].
  exists X. split; [done|]. split; [by apply truthy_string_true|].
  split; [rewrite Hr; unfold updateMany; cbn; by rewrite length_fmap|]. split; [|split].
  - intros i n Hi. rewrite Hr, (updateMany_lookup query now _ _ _ Hi).
    split.
    + intros Hin%matches_in_scope. fold query in Hin. rewrite Hin.
      exists (set_read now n). eauto using same_notification_set_read.
    + intros Hout. destruct (matches query n) eqn:Hm; [|done].
      by apply matches_in_scope in Hm.
  - rewrite Hr, updateMany_count by done.
    f_equal. apply list_filter_iff. intros n. unfold query.
    by rewrite Is_true_true, matches_in_scope.
  - intros now'.
    rewrite (patch_read_all_answers receiverId q now' _ X Ha E).
    cbn zeta. fold query. cbn [db sockets events].
    rewrite Hr, (updateMany_again query now now' (db w)) by done. done.
Qed.

End marking.

(** ** Read state over time, and persist before push *)
Section lifecycle.
Import Js Model Routes System.
Implicit Types (w : world) (n : Notification) (now : nat).
Implicit Types (receiverId : string).

(** C7. A stored notification that is read stays read through every
    sequence of requests and socket events, and stays the same notification
    in the same place; marking it as read again by its identifier is
    answered with success and with the notification, still read and
    otherwise the same but for the [updatedAt] stamp. *)
Theorem read_never_reverts (rs : list (nat * request)) w i n :
  docs (db w) !! i = Some n →
  read n = true →
  (∃ n', docs (db (run rs w)) !! i = Some n'
         ∧ same_notification n n' ∧ read n' = true)
  ∧ (∀ now,
       list_find (λ m, _id m = _id n) (docs (db w)) = Some (i, n) →
       ∃ n', patch_read (_id n) now w =
               (inr {| read_success := true; read_notification := n' |},
                {| sockets := sockets w;
                   db := {| docs := <[i := n']> (docs (db w));
                            next_id := next_id (db w) |};
                   events := events w |})
             ∧ same_notification n n' ∧ read n' = true).
Proof.
  intros Hi Hread. split.
  - destruct (run_keeps_document rs w i n Hi) as (n' & Hi' & Hsame & Hr).
    exists n'. auto.
  - intros now Hfind. exists (set_read now n).
    rewrite (patch_read_found (_id n) now w i n Hfind).
    eauto using same_notification_set_read.
Qed.

(** C5, as the code has it.  In a creation that is answered, the
    notification is stored first and pushed after: the effects of the call
    are the insertion followed by the push to the receiver's room (one push
    when [delivered] is true, none otherwise), and the stored document is in
    the collection.  When the request carried a non-empty [appId], listing
    with that receiver and that [appId] retrieves it: for every limit there
    is a page that holds it.  This is so whatever [delivered] is. *)
Theorem post_persists_then_pushes now (body : PostBody) w resp w' :
  post now body w = (inr resp, w') →
  (∃ pushes : list Sockets.emission,
     events w' =
       (events w ++ Persisted (post_notification resp) :: (Emitted <$> pushes))%list
     ∧ Forall (λ e, ∃ members,
                 e = Sockets.ToRoom (Model.receiverId (post_notification resp))
                       members
                       (Sockets.MsgNotification
                          (push_event (post_notification resp))))
              pushes
     ∧ length pushes = (if post_delivered resp then 1 else 0))
  ∧ post_notification resp ∈ docs (db w')
  ∧ (∀ X, body_appId body = Some X → X ≠ EmptyString →
       ∀ limit, ∃ skip resp',
         get (Model.receiverId (post_notification resp))
             {| q_unreadOnly := None; q_type := None; q_channel := None;
                q_appId := Some X; q_limit := limit; q_skip := Some skip |} w'
           = (inr resp', w')
         ∧ post_notification resp ∈ notifications resp').
Proof.
  intros Hpost.
  destruct (post_cases now body w) as [Hbad|(rid & ty & Hr & Ht & Hrt & Htt)].
  { by rewrite post_rejects in Hpost. }
  destruct (post_accepts now body w rid ty Hr Ht Hrt Htt) as (n & Hn & Heq).
  rewrite Heq in Hpost. injection Hpost as <- <-.
  cbn [post_notification post_delivered events db docs].
  assert (Model.receiverId n = rid) as Hrid by (by rewrite Hn).
  split; [|split].
  - exists (Sockets.sendNotification rid (push_event n) (sockets w)).2.
    split; [by rewrite <-app_assoc|].
    unfold Sockets.sendNotification. rewrite Hrid.
    destruct (Sockets.io (sockets w)); cbn; [|done].
    split; [|done]. apply Forall_singleton. eauto.
  - apply elem_of_app. right. apply list_elem_of_here.
  - intros X Hx Hne limit.
    set (w1 := {| sockets := sockets w;
                  db := {| docs := docs (db w) ++ [n];
                           next_id := S (next_id (db w)) |};
                  events := _ |}).
    set (query := {| f_receiverId := rid; f_appId := X; f_read := None;
                     f_type := None; f_channel := None |}).
    assert (n ∈ sort_createdAt_desc (find query (db w1))) as Hin.
    { apply elem_of_sort, elem_of_find. split.
      - cbn. apply elem_of_app. right. apply list_elem_of_here.
      - apply matches_true. rewrite Hn. cbn. rewrite Hx. naive_solver. }
    apply list_elem_of_lookup in Hin as [i Hi].
    exists i. eexists. rewrite Hrid.
    rewrite (get_answers rid _ w1 X) by (done || by apply truthy_string_true).
    split; [reflexivity|]. cbn [notifications q_limit q_skip default].
    by apply elem_of_page.
Qed.

(** A notification created without [appId] is stored, and no list call
    returns it. *)
Example list_misses_creation_without_appId :
  post 5 Demo.body_no_appId boot =
    (inr {| post_status := 201; post_success := true;
            post_notification := Demo.stored None;
            post_delivered := true |}, Demo.created_no_appId)
  ∧ Demo.stored None ∈ docs (db Demo.created_no_appId)
  ∧ (∀ receiverId (q : GetQuery) resp w',
       get receiverId q Demo.created_no_appId = (inr resp, w') →
       Demo.stored None ∉ notifications resp).
Proof.
  split; [by vm_compute|]. split; [vm_compute; apply list_elem_of_here|].
  intros receiverId q resp w' Hget Hin.
  destruct (get_notifications _ _ _ _ _ _ Hget Hin) as (X & _ & _ & _ & _ & Ha & _).
  discriminate Ha.
Qed.

End lifecycle.

(** ** The scenario, checked against the theorems *)
Section scenario.
Import Js Model Routes System.

Lemma list_only_same_appId_witness :
  get "u1" Demo.query_app1 (run Demo.first_request boot)
    = (inr Demo.listed, Demo.created)
  ∧ Demo.stored (Some "app1") ∈ notifications Demo.listed
  ∧ ∃ X, q_appId Demo.query_app1 = Some X
         ∧ appId (Demo.stored (Some "app1")) = Some X
         ∧ receiverId (Demo.stored (Some "app1")) = "u1"
         ∧ ∃ now body, (now, POST body) ∈ Demo.first_request
                       ∧ body_receiverId body = Some "u1"
                       ∧ body_appId body = Some X.
Proof.
  assert (get "u1" Demo.query_app1 (run Demo.first_request boot)
          = (inr Demo.listed, Demo.created)) as Hget by (by vm_compute).
  assert (Demo.stored (Some "app1") ∈ notifications Demo.listed) as Hin
    by apply list_elem_of_here.
  split; [exact Hget|]. split; [exact Hin|].
  exact (list_only_same_appId _ _ _ _ _ _ Hget Hin).
Defined.

Lemma list_counts_ignore_filters_witness :
  get "u1" Demo.query_app1 Demo.created = (inr Demo.listed, Demo.created)
  ∧ ∃ X, q_appId Demo.query_app1 = Some X
         ∧ total Demo.listed =
             length (filter (λ n, receiverId n = "u1" ∧ appId n = Some X)
                            (docs (db Demo.created)))
         ∧ unreadCount Demo.listed =
             length (filter (λ n, receiverId n = "u1" ∧ appId n = Some X
                                  ∧ read n = false)
                            (docs (db Demo.created))).
Proof.
  assert (get "u1" Demo.query_app1 Demo.created
          = (inr Demo.listed, Demo.created)) as Hget by (by vm_compute).
  split; [exact Hget|].
  destruct (list_counts_ignore_filters _ _ _ _ _ Hget)
    as (X & Ha & Htotal & Hunread & _).
  exists X. split; [exact Ha|]. split; [exact Htotal|exact Hunread].
Defined.

Lemma markAllRead_scope_witness :
  patch_read_all "u1" Demo.read_all_app1 9 Demo.created
    = (inr {| ra_success := true; modifiedCount := 1 |}, Demo.all_read)
  ∧ ∃ X, ra_appId Demo.read_all_app1 = Some X
         ∧ 1 = length (filter (in_scope "u1" X None None)
                              (docs (db Demo.created)))
         ∧ patch_read_all "u1" Demo.read_all_app1 10 Demo.all_read
           = (inr {| ra_success := true; modifiedCount := 0 |}, Demo.all_read).
Proof.
  assert (patch_read_all "u1" Demo.read_all_app1 9 Demo.created
    = (inr {| ra_success := true; modifiedCount := 1 |}, Demo.all_read))
    as Hcall by (by vm_compute).
  split; [exact Hcall|].
  destruct (markAllRead_scope _ _ _ _ _ _ Hcall)
    as (X & Ha & _ & _ & _ & Hcount & Hagain).
  exists X. split; [exact Ha|]. split; [exact Hcount|exact (Hagain 10)].
Defined.

Lemma post_persists_then_pushes_witness :
  post 5 Demo.body_app1 boot
    = (inr {| post_status := 201; post_success := true;
              post_notification := Demo.stored (Some "app1");
              post_delivered := true |}, Demo.created)
  ∧ Demo.stored (Some "app1") ∈ docs (db Demo.created)
  ∧ ∃ skip resp',
      get "u1" {| q_unreadOnly := None; q_type := None; q_channel := None;
                  q_appId := Some "app1"; q_limit := None;
                  q_skip := Some skip |} Demo.created
        = (inr resp', Demo.created)
      ∧ Demo.stored (Some "app1") ∈ notifications resp'.
Proof.
  assert (post 5 Demo.body_app1 boot
    = (inr {| post_status := 201; post_success := true;
              post_notification := Demo.stored (Some "app1");
              post_delivered := true |}, Demo.created))
    as Hpost by (by vm_compute).
  split; [exact Hpost|].
  destruct (post_persists_then_pushes _ _ _ _ _ Hpost) as (_ & Hin & Hlist).
  split; [exact Hin|].
  refine (Hlist "app1" eq_refl _ None). discriminate.
Defined.

Lemma read_never_reverts_witness :
  docs (db Demo.marked) !! 0 = Some (set_read 6 (Demo.stored (Some "app1")))
  ∧ read (set_read 6 (Demo.stored (Some "app1"))) = true
  ∧ ∃ n', docs (db (run Demo.history Demo.marked)) !! 0 = Some n'
          ∧ same_notification (set_read 6 (Demo.stored (Some "app1"))) n'
          ∧ read n' = true.
Proof.
  assert (docs (db Demo.marked) !! 0
          = Some (set_read 6 (Demo.stored (Some "app1")))) as Hi
    by (by vm_compute).
  split; [exact Hi|]. split; [reflexivity|].
  exact (proj1 (read_never_reverts Demo.history _ _ _ Hi eq_refl)).
Defined.

End scenario.

(** ** The registry, operation by operation *)
Section registry_operations.
Import Js Sockets.
Implicit Types (sid receiverId other : string) (st : state).

Lemma state_eq st1 st2 :
  io st1 = io st2 → activeConnections st1 = activeConnections st2 → st1 = st2.
Proof. destruct st1, st2; cbn; by intros -> ->. Qed.

Lemma subscribe_lookup sid receiverId st r :
  receiverId ≠ EmptyString →
  activeConnections (subscribe sid receiverId st).1 !! r =
    if decide (r = receiverId)
    then Some ({[sid]} ∪ default ∅ (activeConnections st !! receiverId))
    else activeConnections st !! r.
Proof.
  intros Hne%truthy_string_true. unfold subscribe. rewrite Hne. cbn.
  case_decide as Hr.
  - subst r. rewrite lookup_alter_eq.
    destruct (activeConnections st !! receiverId) as [s0|] eqn:E.
    + by rewrite E.
    + by rewrite lookup_insert_eq.
  - rewrite lookup_alter_ne by done.
    destruct (activeConnections st !! receiverId); [done|].
    by rewrite lookup_insert_ne.
Qed.

Lemma subscribe_empty sid st :
  subscribe sid EmptyString st
  = (st, [ToSocket sid (MsgError "receiverId is required")]).
Proof. done. Qed.

(** X1. After [subscribe], the receiver named is online exactly when the
    name was not empty or it was online already; with a non-empty name the
    session is in its set, next to the sessions that were there; every
    other receiver keeps its entry; and the only message sent goes to the
    subscribing session: the error for an empty name, the acknowledgment
    otherwise. *)
Theorem subscribe_presence sid receiverId st :
  (isReceiverOnline receiverId (subscribe sid receiverId st).1 = true ↔
     receiverId ≠ EmptyString ∨ isReceiverOnline receiverId st = true)
  ∧ activeConnections (subscribe sid receiverId st).1 !! receiverId
    = (if decide (receiverId = EmptyString)
       then activeConnections st !! receiverId
       else Some ({[sid]} ∪ default ∅ (activeConnections st !! receiverId)))
  ∧ (∀ r, r ≠ receiverId →
       activeConnections (subscribe sid receiverId st).1 !! r
       = activeConnections st !! r)
  ∧ (subscribe sid receiverId st).2 =
      [ToSocket sid
         (if decide (receiverId = EmptyString)
          then MsgError "receiverId is required"
          else MsgSubscribed receiverId "Successfully subscribed")].
Proof.
  destruct (decide (receiverId = EmptyString)) as [->|Hne].
  - rewrite subscribe_empty. cbn [fst snd]. split; [naive_solver|].
    split; [done|]. split; [done|]. done.
  - split; [|split; [|split]].
    + rewrite isReceiverOnline_spec, subscribe_lookup, decide_True by done.
      split; [auto|]. intros _. eexists. split; [done|]. set_solver.
    + by rewrite subscribe_lookup, decide_True.
    + intros r Hr. by rewrite subscribe_lookup, decide_False.
    + unfold subscribe. apply truthy_string_true in Hne as Ht. rewrite Ht.
      done.
Qed.

(** X2. Subscribing the same session to the same receiver twice leaves
    the registry and the rooms as subscribing once does. *)
Theorem subscribe_twice sid receiverId st :
  (subscribe sid receiverId (subscribe sid receiverId st).1).1
  = (subscribe sid receiverId st).1.
Proof.
  destruct (decide (receiverId = EmptyString)) as [->|Hne]; [done|].
  apply state_eq.
  - unfold subscribe. apply truthy_string_true in Hne as Ht. rewrite Ht.
    cbn. destruct (io st) as [server|]; cbn; [|done].
    f_equal. unfold join. cbn. f_equal.
    rewrite lookup_insert_eq. cbn. rewrite insert_insert_eq.
    f_equal. set_solver.
  - apply map_eq. intros r. rewrite !subscribe_lookup by done.
    case_decide; [|done]. rewrite decide_True by done. cbn.
    f_equal. set_solver.
Qed.

Lemma unsubscribe_lookup_ne sid receiverId st r :
  r ≠ receiverId →
  activeConnections (unsubscribe sid receiverId st) !! r
  = activeConnections st !! r.
Proof.
  intros Hr. unfold unsubscribe; cbn.
  destruct (activeConnections st !! receiverId); [|done].
  by rewrite lookup_alter_ne.
Qed.

Lemma unsubscribe_untracked sid receiverId st :
  (∀ sockets, activeConnections st !! receiverId = Some sockets →
              sid ∉ sockets) →
  activeConnections (unsubscribe sid receiverId st) = activeConnections st.
Proof.
  intros Hnot. apply map_eq. intros r.
  destruct (decide (r = receiverId)) as [->|Hr].
  - rewrite unsubscribe_lookup.
    destruct (activeConnections st !! receiverId) as [s|] eqn:E; [|done].
    cbn. f_equal. specialize (Hnot s eq_refl). set_solver.
  - by apply unsubscribe_lookup_ne.
Qed.

(** X3. After [unsubscribe], the receiver named is online exactly when
    its set held another session; every other receiver keeps its entry;
    and when the session was not in the set of that receiver the registry
    is left as it was. *)
Theorem unsubscribe_presence sid receiverId st :
  (isReceiverOnline receiverId (unsubscribe sid receiverId st) = true ↔
     ∃ sockets other, activeConnections st !! receiverId = Some sockets
                      ∧ other ∈ sockets ∧ other ≠ sid)
  ∧ (∀ r, r ≠ receiverId →
       activeConnections (unsubscribe sid receiverId st) !! r
       = activeConnections st !! r)
  ∧ ((∀ sockets, activeConnections st !! receiverId = Some sockets →
                 sid ∉ sockets) →
     activeConnections (unsubscribe sid receiverId st) = activeConnections st).
Proof.
  split; [|split].
  - rewrite isReceiverOnline_spec, unsubscribe_lookup.
    destruct (activeConnections st !! receiverId) as [s|]; cbn; [|naive_solver].
    split.
    + intros (? & [= <-] & [other Hin]%set_choose_L).
      exists s, other. set_solver.
    + intros (? & other & [= <-] & Hin & Hne). eexists. split; [done|].
      set_solver.
  - intros r Hr. by apply unsubscribe_lookup_ne.
  - apply unsubscribe_untracked.
Qed.

(** X4. A session that was not tracked under a receiver, subscribes to it
    and unsubscribes again leaves the presence of every receiver as it
    was. *)
Theorem subscribe_unsubscribe_presence sid receiverId st r :
  (∀ sockets, activeConnections st !! receiverId = Some sockets →
              sid ∉ sockets) →
  isReceiverOnline r
    (unsubscribe sid receiverId (subscribe sid receiverId st).1)
  = isReceiverOnline r st.
Proof.
  intros Hnot.
  destruct (decide (receiverId = EmptyString)) as [->|Hne].
  { rewrite subscribe_empty. cbn [fst]. unfold isReceiverOnline.
    by rewrite unsubscribe_untracked. }
  destruct (decide (r = receiverId)) as [->|Hr].
  - unfold isReceiverOnline at 1.
    rewrite unsubscribe_lookup, subscribe_lookup, decide_True by done. cbn.
    unfold isReceiverOnline.
    destruct (activeConnections st !! receiverId) as [s|] eqn:E; cbn.
    + specialize (Hnot s eq_refl).
      assert (({[sid]} ∪ s) ∖ {[sid]} = s) as -> by set_solver. done.
    + assert (({[sid]} ∪ ∅) ∖ {[sid]} = (∅ : gset string)) as -> by set_solver.
      done.
  - unfold isReceiverOnline.
    rewrite unsubscribe_lookup_ne by done.
    by rewrite subscribe_lookup, decide_False.
Qed.

End registry_operations.

(** ** Session end *)
Section session_end.
Import Js Sockets.
Implicit Types (sid receiverId other : string) (st : state).

Lemma disconnect_lookup_Some sid st receiverId (sockets : gset string) :
  activeConnections (disconnect sid st) !! receiverId = Some sockets ↔
  sockets ≠ ∅
  ∧ ∃ before, activeConnections st !! receiverId = Some before
              ∧ sockets = before ∖ {[sid]}.
Proof.
  rewrite disconnect_lookup.
  destruct (activeConnections st !! receiverId) as [s0|]; [|naive_solver].
  case_decide as Hsz.
  - apply size_empty_iff, leibniz_equiv in Hsz. split; [done|].
    intros (Hne & before & [= Hb] & Hs). subst before sockets. done.
  - apply size_non_empty_iff in Hsz. split.
    + intros [= Hs]. subst sockets. split; [|eauto].
      intros Hempty. apply Hsz. by rewrite Hempty.
    + intros (_ & before & [= Hb] & Hs). by subst before sockets.
Qed.

(** X5. After the [disconnect] handler ran for a session, an entry of the
    registry is exactly an entry it had before, without that session, and
    not empty: the session is tracked nowhere, and every set that it
    emptied, or that was empty already, is gone. *)
Theorem disconnect_leaves sid st receiverId (sockets : gset string) :
  activeConnections (disconnect sid st) !! receiverId = Some sockets ↔
  sockets ≠ ∅ ∧ (sid ∉ sockets)
  ∧ ∃ before, activeConnections st !! receiverId = Some before
              ∧ sockets = before ∖ {[sid]}.
Proof.
  rewrite disconnect_lookup_Some. split.
  - intros (Hne & before & Hb & ->). split; [done|].
    split; [set_solver|eauto].
  - intros (Hne & _ & Hb). done.
Qed.

Lemma disconnect_lookup_twice a b st receiverId :
  activeConnections (disconnect a (disconnect b st)) !! receiverId =
    match activeConnections st !! receiverId with
    | Some sockets =>
      if decide (sockets ∖ {[a]} ∖ {[b]} = ∅) then None
      else Some (sockets ∖ {[a]} ∖ {[b]})
    | None => None
    end.
Proof.
  rewrite disconnect_lookup, disconnect_lookup.
  destruct (activeConnections st !! receiverId) as [s|]; [|done].
  destruct (decide (size (s ∖ {[b]}) = 0)) as [Hb|Hb].
  - apply size_empty_iff, leibniz_equiv in Hb.
    rewrite decide_True by set_solver. done.
  - destruct (decide (size (s ∖ {[b]} ∖ {[a]}) = 0)) as [Ha|Ha].
    + apply size_empty_iff, leibniz_equiv in Ha.
      rewrite decide_True by set_solver. done.
    + apply size_non_empty_iff in Ha.
      rewrite decide_False by set_solver. f_equal. set_solver.
Qed.

(** X6. Processing the [disconnect] of the same session a second time
    changes nothing. *)
Theorem disconnect_twice sid st :
  disconnect sid (disconnect sid st) = disconnect sid st.
Proof.
  apply state_eq; [done|]. apply map_eq. intros r.
  rewrite disconnect_lookup_twice, disconnect_lookup.
  destruct (activeConnections st !! r) as [s|]; [|done].
  destruct (decide (size (s ∖ {[sid]}) = 0)) as [Hs|Hs].
  - apply size_empty_iff, leibniz_equiv in Hs.
    rewrite decide_True by set_solver. done.
  - apply size_non_empty_iff in Hs.
    rewrite decide_False by set_solver. f_equal. set_solver.
Qed.

(** X7. The order in which two sessions end does not matter to the
    registry. *)
Theorem disconnect_order a b st :
  disconnect a (disconnect b st) = disconnect b (disconnect a st).
Proof.
  apply state_eq; [done|]. apply map_eq. intros r.
  rewrite !disconnect_lookup_twice.
  destruct (activeConnections st !! r) as [s|]; [|done].
  assert (s ∖ {[a]} ∖ {[b]} = s ∖ {[b]} ∖ {[a]}) as -> by set_solver.
  done.
Qed.

End session_end.

(** ** Store and registry side by side *)
Section separation.
Import Js Model Routes System.
Implicit Types (w : world) (now : nat) (receiverId : string).

Lemma get_world receiverId (q : GetQuery) w : (get receiverId q w).2 = w.
Proof.
  destruct (truthy_opt (q_appId q)) eqn:E.
  - destruct (q_appId q) as [X|] eqn:Ha; [|done].
    by rewrite (get_answers receiverId q w X).
  - by rewrite get_rejects.
Qed.

Lemma post_sockets now (body : PostBody) w :
  sockets (post now body w).2 = sockets w.
Proof.
  destruct (post_cases now body w) as [Hbad|(rid & ty & Hr & Ht & Hrt & Htt)].
  - by rewrite post_rejects.
  - by destruct (post_accepts now body w rid ty Hr Ht Hrt Htt) as (n & _ & ->).
Qed.

Lemma patch_read_sockets id now w : sockets (patch_read id now w).2 = sockets w.
Proof.
  destruct (list_find (λ m, _id m = id) (docs (db w))) as [[j m]|] eqn:Hfind.
  - by rewrite (patch_read_found id now w j m Hfind).
  - by rewrite (patch_read_missing id now w Hfind).
Qed.

Lemma patch_read_all_sockets receiverId (q : ReadAllQuery) now w :
  sockets (patch_read_all receiverId q now w).2 = sockets w.
Proof.
  destruct (truthy_opt (ra_appId q)) eqn:E.
  - destruct (ra_appId q) as [X|] eqn:Ha; [|done].
    by rewrite (patch_read_all_answers receiverId q now w X).
  - by rewrite patch_read_all_rejects.
Qed.

(** X8. The four HTTP handlers leave the sockets module as it is, the
    transport and the registry both, and the socket events leave the
    collection as it is: one dispatch changes the store or the registry,
    never both. *)
Theorem dispatch_changes_one_side w (r : nat * request) :
  match r.2 with
  | POST _ | GET _ _ | PATCH_read _ | PATCH_read_all _ _ =>
    sockets (step w r) = sockets w
  | Subscribe _ _ | Unsubscribe _ _ | Disconnect _ =>
    db (step w r) = db w
  end.
Proof.
  destruct r as [now [body|receiverId q|id|receiverId q|sid receiverId|sid receiverId|sid]];
    cbn [snd step].
  - apply post_sockets.
  - by rewrite get_world.
  - apply patch_read_sockets.
  - apply patch_read_all_sockets.
  - unfold on_socket. by destruct (Sockets.subscribe _ _ _).
  - done.
  - done.
Qed.

(** X9. A request that is refused leaves the process as it was: nothing
    stored, nothing marked, nothing pushed; and a listing leaves it as it
    was whether answered or refused. *)
Theorem refused_requests_change_nothing w :
  (∀ now (body : PostBody) e w',
     post now body w = (inl e, w') → w' = w)
  ∧ (∀ receiverId (q : GetQuery), (get receiverId q w).2 = w)
  ∧ (∀ id now e w', patch_read id now w = (inl e, w') → w' = w)
  ∧ (∀ receiverId (q : ReadAllQuery) now e w',
       patch_read_all receiverId q now w = (inl e, w') → w' = w).
Proof.
  split; [|split; [|split]].
  - intros now body e w' Hpost.
    destruct (post_cases now body w) as [Hbad|(rid & ty & Hr & Ht & Hrt & Htt)].
    + rewrite post_rejects in Hpost by done. by injection Hpost as _ <-.
    + destruct (post_accepts now body w rid ty Hr Ht Hrt Htt) as (n & _ & Heq).
      by rewrite Heq in Hpost.
  - intros. apply get_world.
  - intros id now e w' Hcall.
    destruct (list_find (λ m, _id m = id) (docs (db w))) as [[j m]|] eqn:Hfind.
    + by rewrite (patch_read_found id now w j m Hfind) in Hcall.
    + rewrite (patch_read_missing id now w Hfind) in Hcall.
      by injection Hcall as _ <-.
  - intros receiverId q now e w' Hcall.
    destruct (truthy_opt (ra_appId q)) eqn:E.
    + destruct (ra_appId q) as [X|] eqn:Ha; [|done].
      by rewrite (patch_read_all_answers receiverId q now w X) in Hcall.
    + rewrite patch_read_all_rejects in Hcall by done.
      by injection Hcall as _ <-.
Qed.

End separation.

(** ** Rooms and registry move together *)
Section rooms.
Import Js Model Routes System.
Implicit Types (w : world) (receiverId sid : string).




End rooms.

(** ** What the routes refuse and what they answer *)
Section answers.
Import Js Model Routes System.
Implicit Types (w : world) (now : nat) (receiverId : string).

(** X11. The list route raises exactly when [appId] is missing or empty,
    and what it raises then is the bad-request error, status 400;
    otherwise it answers. *)
Theorem get_validation receiverId (q : GetQuery) w :
  ((get receiverId q w).1 = inl missing_appId ↔
     truthy_opt (q_appId q) = false)
  ∧ ((∃ resp, (get receiverId q w).1 = inr resp) ↔
       truthy_opt (q_appId q) = true)
  ∧ (∃ text, missing_appId = Api (ApiError.badRequest text)
             ∧ ApiError.status (ApiError.badRequest text) = 400).
Proof.
  split; [|split; [|eexists; split; reflexivity]].
  - split; [|intros Hbad; by rewrite get_rejects].
    destruct (truthy_opt (q_appId q)) eqn:E; [|done].
    destruct (q_appId q) as [X|] eqn:Ha; [|done].
    by rewrite (get_answers receiverId q w X).
  - destruct (truthy_opt (q_appId q)) eqn:E.
    + destruct (q_appId q) as [X|] eqn:Ha; [|done].
      rewrite (get_answers receiverId q w X) by done. split; eauto.
    + rewrite get_rejects by done. split; [|done]. by intros [resp ?].
Qed.

(** X12. The bulk mark-as-read route raises exactly when [appId] is
    missing or empty, with the bad-request error, status 400, and marks
    nothing then; otherwise it answers with [success]. *)
Theorem patch_read_all_validation receiverId (q : ReadAllQuery) now w :
  (patch_read_all receiverId q now w = (inl missing_appId, w) ↔
     truthy_opt (ra_appId q) = false)
  ∧ ((∃ k, (patch_read_all receiverId q now w).1
           = inr {| ra_success := true; modifiedCount := k |}) ↔
       truthy_opt (ra_appId q) = true)
  ∧ (∃ text, missing_appId = Api (ApiError.badRequest text)
             ∧ ApiError.status (ApiError.badRequest text) = 400).
Proof.
  split; [|split; [|eexists; split; reflexivity]].
  - split; [|intros Hbad; by rewrite patch_read_all_rejects].
    destruct (truthy_opt (ra_appId q)) eqn:E; [|done].
    destruct (ra_appId q) as [X|] eqn:Ha; [|done].
    by rewrite (patch_read_all_answers receiverId q now w X).
  - destruct (truthy_opt (ra_appId q)) eqn:E.
    + destruct (ra_appId q) as [X|] eqn:Ha; [|done].
      rewrite (patch_read_all_answers receiverId q now w X) by done.
      split; eauto.
    + rewrite patch_read_all_rejects by done. split; [|done]. by intros [k ?].
Qed.


End answers.

(** ** The page a listing returns *)
Section page.
Import Js Model Routes System.
Implicit Types (w : world) (n : Notification) (l : list Notification).
Local Open Scope nat_scope.

Lemma newer_first_trans : Transitive newer_first.
Proof. unfold newer_first. intros a b c ??. lia. Qed.

Lemma newer_first_total : Total newer_first.
Proof. unfold newer_first. intros a b. lia. Qed.

Lemma StronglySorted_lookup (R : relation Notification) l i j a b :
  StronglySorted R l → i < j → l !! i = Some a → l !! j = Some b → R a b.
Proof.
  intros Hs. revert i j. induction Hs as [|x l Hs IH Hall]; intros i j Hij Hi Hj.
  - done.
  - destruct j as [|j]; [lia|]. cbn in Hj. destruct i as [|i].
    + injection Hi as ->. rewrite Forall_forall in Hall.
      apply Hall. by eapply list_elem_of_lookup_2.
    + cbn in Hi. apply (IH i j); [lia|done..].
Qed.

Lemma page_sorted k m l :
  StronglySorted newer_first (limit m (skip k (sort_createdAt_desc l))).
Proof.
  assert (StronglySorted newer_first (sort_createdAt_desc l)) as Hs.
  { apply (@StronglySorted_merge_sort _ _ _ newer_first_trans newer_first_total). }
  assert (StronglySorted newer_first (skip k (sort_createdAt_desc l))) as Hd.
  { unfold skip. rewrite <-(take_drop k (sort_createdAt_desc l)) in Hs.
    by apply StronglySorted_app_1_r in Hs. }
  destruct m as [|m]; [done|]. cbn [limit].
  rewrite <-(take_drop (S m) (skip k _)) in Hd.
  by apply StronglySorted_app_1_l in Hd.
Qed.

Lemma page_length k m l :
  length (limit m (skip k (sort_createdAt_desc l))) ≤ length l
  ∧ (m ≠ 0 → length (limit m (skip k (sort_createdAt_desc l))) ≤ m).
Proof.
  assert (length (sort_createdAt_desc l) = length l) as Hlen.
  { unfold sort_createdAt_desc. by rewrite merge_sort_Permutation. }
  unfold skip. destruct m as [|m]; cbn [limit].
  - rewrite length_drop. split; [lia|done].
  - rewrite length_take, length_drop. split; lia.
Qed.

Lemma length_filter_le (P Q : Notification → Prop)
    `{∀ n, Decision (P n)} `{∀ n, Decision (Q n)} l :
  (∀ n, P n → Q n) → length (filter P l) ≤ length (filter Q l).
Proof.
  intros HPQ. induction l as [|x l IH]; [done|].
  rewrite !filter_cons.
  destruct (decide (P x)) as [HP|HP].
  - rewrite decide_True by auto. cbn. lia.
  - destruct (decide (Q x)); cbn; lia.
Qed.

Lemma countDocuments_le (q1 q2 : filter_doc) (c : collection) :
  (∀ n, matches q1 n = true → matches q2 n = true) →
  countDocuments q1 c ≤ countDocuments q2 c.
Proof.
  intros Hq. unfold countDocuments, find. apply length_filter_le.
  intros n. rewrite !Is_true_true. apply Hq.
Qed.

(** X14. The notifications of a list answer are ordered newest first by
    [createdAt]; there are at most [limit] of them (50 when no limit is
    given; a limit of zero does not bound the page), never more than
    [total]; and [unreadCount] never exceeds [total]. *)
Theorem list_page receiverId (q : GetQuery) w resp w' :
  get receiverId q w = (inr resp, w') →
  (∀ i j a b, i < j → notifications resp !! i = Some a →
              notifications resp !! j = Some b → createdAt b ≤ createdAt a)
  ∧ (default 50 (q_limit q) ≠ 0 →
     length (notifications resp) ≤ default 50 (q_limit q))
  ∧ length (notifications resp) ≤ total resp
  ∧ unreadCount resp ≤ total resp.
Proof.
  intros Hget. destruct (get_inv _ _ _ _ _ Hget) as (X & Ha & Ht).
  rewrite (get_answers receiverId q w X Ha Ht) in Hget.
  injection Hget as <- <-. cbn [notifications total unreadCount].
  split; [|split; [|split]].
  - intros i j a b Hij Hi Hj.
    exact (StronglySorted_lookup _ _ i j a b (page_sorted _ _ _) Hij Hi Hj).
  - apply (proj2 (page_length _ _ _)).
  - etrans; [apply (proj1 (page_length _ _ _))|].
    apply countDocuments_le. intros n. rewrite !matches_true. cbn.
    naive_solver.
  - apply countDocuments_le. intros n. rewrite !matches_true. cbn.
    naive_solver.
Qed.

End page.

(** ** How the counts move *)
Section counts.
Import Js Model Routes System.
Implicit Types (w : world) (n : Notification) (l : list Notification).
Implicit Types (now : nat) (receiverId : string) (q : filter_doc).
Local Open Scope nat_scope.
Local Open Scope list_scope.

Lemma count_one q n :
  length (filter (λ m, matches q m) [n]) = if matches q n then 1 else 0.
Proof.
  rewrite filter_cons, filter_nil. destruct (matches q n); cbn; done.
Qed.

Lemma count_snoc q l n next next' :
  countDocuments q {| docs := l ++ [n]; next_id := next |}
  = countDocuments q {| docs := l; next_id := next' |}
    + (if matches q n then 1 else 0).
Proof.
  unfold countDocuments, find. cbn [docs].
  by rewrite filter_app, length_app, count_one.
Qed.

Lemma count_insert q l i n n' :
  l !! i = Some n →
  length (filter (λ m, matches q m) (<[i := n']> l))
    + (if matches q n then 1 else 0)
  = length (filter (λ m, matches q m) l) + (if matches q n' then 1 else 0).
Proof.
  intros Hi.
  rewrite insert_take_drop by (by eapply lookup_lt_Some).
  rewrite <-(take_drop_middle l i n Hi) at 3.
  rewrite !filter_app, !length_app.
  change (n' :: drop (S i) l) with ([n'] ++ drop (S i) l).
  change (n :: drop (S i) l) with ([n] ++ drop (S i) l).
  rewrite !filter_app, !length_app, !count_one. lia.
Qed.

Lemma count_fmap q (f : Notification → Notification) l :
  (∀ n, matches q (f n) = matches q n) →
  length (filter (λ m, matches q m) (f <$> l))
  = length (filter (λ m, matches q m) l).
Proof.
  intros Hf. induction l as [|x l IH]; [done|].
  rewrite fmap_cons, !filter_cons, Hf.
  destruct (decide (matches q x)); cbn; by rewrite IH.
Qed.

(** The documents a bulk update marks leave the unread count, one by
    one. *)
Lemma count_updateMany (qs qu : filter_doc) now l :
  (∀ n, matches qs n = true → matches qu n = true) →
  (∀ n, matches qu (set_read now n) = false) →
  length (filter (λ m, matches qu m)
            ((λ n, if matches qs n then set_read now n else n) <$> l))
    + length (filter (λ m, matches qs m) l)
  = length (filter (λ m, matches qu m) l).
Proof.
  intros Hsub Hread. induction l as [|x l IH]; [done|].
  rewrite fmap_cons, !filter_cons.
  destruct (matches qs x) eqn:Hs.
  - rewrite Hread, (Hsub x Hs).
    rewrite (decide_False (P := Is_true false)) by (by intros []).
    rewrite !(decide_True (P := Is_true true)) by done.
    cbn [length]. lia.
  - rewrite (decide_False (P := Is_true false)) by (by intros []).
    destruct (decide (matches qu x)); cbn [length]; lia.
Qed.

Lemma matches_set_read_any q now n :
  f_read q = None → matches q (set_read now n) = matches q n.
Proof. intros Hq. unfold matches. by rewrite Hq. Qed.

(** The two counts of a list answer, read off the collection. *)
Lemma get_counts receiverId (gq : GetQuery) w a w1 :
  get receiverId gq w = (inr a, w1) →
  ∃ X, q_appId gq = Some X ∧ truthy_string X = true
    ∧ total a = countDocuments
        {| f_receiverId := receiverId; f_appId := X;
           f_read := None; f_type := None; f_channel := None |} (db w)
    ∧ unreadCount a = countDocuments
        {| f_receiverId := receiverId; f_appId := X;
           f_read := Some false; f_type := None; f_channel := None |} (db w).
Proof.
  intros Hget. destruct (get_inv _ _ _ _ _ Hget) as (X & Ha & Ht).
  rewrite (get_answers receiverId gq w X Ha Ht) in Hget.
  injection Hget as <- <-. by exists X.
Qed.

(** X15. A creation that is answered adds one to [total] and to
    [unreadCount] of the listings for its own receiver and [appId], and
    leaves the two counts of every other listing as they were. *)
Theorem creation_counts now (body : PostBody) w resp w' receiverId
    (gq : GetQuery) a w1 :
  post now body w = (inr resp, w') →
  get receiverId gq w = (inr a, w1) →
  ∃ b, get receiverId gq w' = (inr b, w')
    ∧ total b = total a +
        (if decide (body_receiverId body = Some receiverId
                    ∧ body_appId body = q_appId gq) then 1 else 0)
    ∧ unreadCount b = unreadCount a +
        (if decide (body_receiverId body = Some receiverId
                    ∧ body_appId body = q_appId gq) then 1 else 0).
Proof.
  intros Hpost Hget.
  destruct (get_counts _ _ _ _ _ Hget) as (X & Ha & Ht & -> & ->).
  destruct (post_cases now body w) as [Hbad|(rid & ty & Hr & Hty & Hrt & Htt)].
  { by rewrite post_rejects in Hpost. }
  destruct (post_accepts now body w rid ty Hr Hty Hrt Htt) as (n & Hn & Heq).
  rewrite Heq in Hpost. injection Hpost as <- <-.
  eexists. rewrite (get_answers receiverId gq _ X Ha Ht).
  split; [reflexivity|]. cbn [total unreadCount db].
  rewrite !(count_snoc _ _ _ _ (next_id (db w))).
  assert (∀ o, matches {| f_receiverId := receiverId; f_appId := X;
                          f_read := o; f_type := None; f_channel := None |} n
               = bool_decide (body_receiverId body = Some receiverId
                              ∧ body_appId body = q_appId gq)
                 && cond o false) as Hm.
  { intros o. unfold matches. rewrite Hn, Hr, Ha. cbn.
    rewrite !andb_true_r. f_equal.
    rewrite <-bool_decide_and. apply bool_decide_ext. naive_solver. }
  rewrite !Hm. cbn [cond].
  rewrite (bool_decide_eq_true_2 (false = false)) by done.
  rewrite !andb_true_r. unfold countDocuments, find. cbn [docs].
  destruct (decide (_ ∧ _)) as [Hc|Hc].
  - by rewrite !bool_decide_eq_true_2 by done.
  - by rewrite !bool_decide_eq_false_2 by done.
Qed.

End counts.

(** ** Marking and the counts *)
Section marking_counts.
Import Js Model Routes System.
Implicit Types (w : world) (n : Notification) (l : list Notification).
Implicit Types (now : nat) (receiverId : string).
Local Open Scope nat_scope.
Local Open Scope list_scope.

(** X16. After a bulk mark-as-read that is answered, a listing for the
    same receiver and [appId] has the same [total], and its [unreadCount]
    is lower by exactly [modifiedCount]; when the bulk call narrowed by
    neither [type] nor [channel], [unreadCount] is zero. *)
Theorem read_all_counts receiverId (q : ReadAllQuery) now w resp w'
    (gq : GetQuery) a w1 :
  patch_read_all receiverId q now w = (inr resp, w') →
  get receiverId gq w = (inr a, w1) →
  q_appId gq = ra_appId q →
  ∃ b, get receiverId gq w' = (inr b, w')
    ∧ total b = total a
    ∧ unreadCount b + modifiedCount resp = unreadCount a
    ∧ (when_truthy (ra_type q) = None → when_truthy (ra_channel q) = None →
       unreadCount b = 0).
Proof.
  intros Hcall Hget Happ.
  destruct (get_counts _ _ _ _ _ Hget) as (X & Ha & Ht & Htot & Hunr).
  rewrite Ha in Happ. symmetry in Happ.
  rewrite (patch_read_all_answers receiverId q now w X Happ Ht) in Hcall.
  cbn zeta in Hcall.
  set (query := {| f_receiverId := receiverId; f_appId := X;
                   f_read := Some false;
                   f_type := when_truthy (ra_type q);
                   f_channel := when_truthy (ra_channel q) |}) in *.
  remember (updateMany query now (db w)) as r eqn:Hr.
  injection Hcall as <- <-.
  eexists. rewrite (get_answers receiverId gq _ X Ha Ht).
  split; [reflexivity|]. cbn [total unreadCount db modifiedCount].
  rewrite Htot, Hunr, Hr. unfold countDocuments, find.
  rewrite updateMany_count by done. unfold updateMany. cbn [snd docs].
  assert (length (filter (λ m, matches
            {| f_receiverId := receiverId; f_appId := X;
               f_read := Some false; f_type := None; f_channel := None |} m)
            ((λ n, if matches query n then set_read now n else n)
               <$> docs (db w)))
          + length (filter (λ m, matches query m) (docs (db w)))
          = length (filter (λ m, matches
            {| f_receiverId := receiverId; f_appId := X;
               f_read := Some false; f_type := None; f_channel := None |} m)
            (docs (db w)))) as Hsum.
  { apply count_updateMany.
    - intros n. rewrite !matches_true. unfold query. cbn. naive_solver.
    - intros n. by apply matches_set_read_false. }
  split; [|split; [exact Hsum|]].
  - apply count_fmap. intros n.
    destruct (matches query n); [|done]. by apply matches_set_read_any.
  - intros Hty Hch.
    assert (query = {| f_receiverId := receiverId; f_appId := X;
                       f_read := Some false; f_type := None;
                       f_channel := None |}) as Hq
      by (unfold query; by rewrite Hty, Hch).
    clearbody query. subst query. lia.
Qed.

(** X17. After one notification is marked as read, [total] of every
    listing is as before, and [unreadCount] is lower by one for the
    listings of its receiver and [appId] when it was unread, and as before
    otherwise. *)
Theorem mark_read_counts id now w i n receiverId (gq : GetQuery) a w1 :
  list_find (λ m, _id m = id) (docs (db w)) = Some (i, n) →
  get receiverId gq w = (inr a, w1) →
  ∃ b, get receiverId gq (patch_read id now w).2
       = (inr b, (patch_read id now w).2)
    ∧ total b = total a
    ∧ unreadCount b +
        (if decide (read n = false ∧ Model.receiverId n = receiverId
                    ∧ appId n = q_appId gq) then 1 else 0)
      = unreadCount a.
Proof.
  intros Hfind Hget.
  destruct (get_counts _ _ _ _ _ Hget) as (X & Ha & Ht & Htot & Hunr).
  rewrite (patch_read_found id now w i n Hfind). cbn [snd].
  apply list_find_Some in Hfind as (Hi & _ & _).
  eexists. rewrite (get_answers receiverId gq _ X Ha Ht).
  split; [reflexivity|]. cbn [total unreadCount db].
  rewrite Htot, Hunr. unfold countDocuments, find. cbn [docs].
  split.
  - pose proof (count_insert
      {| f_receiverId := receiverId; f_appId := X;
         f_read := None; f_type := None; f_channel := None |}
      _ i n (set_read now n) Hi) as Hc.
    rewrite matches_set_read_any in Hc by done.
    destruct (matches _ n); lia.
  - pose proof (count_insert
      {| f_receiverId := receiverId; f_appId := X;
         f_read := Some false; f_type := None; f_channel := None |}
      _ i n (set_read now n) Hi) as Hc.
    rewrite matches_set_read_false in Hc by done.
    assert (matches {| f_receiverId := receiverId; f_appId := X;
                       f_read := Some false; f_type := None;
                       f_channel := None |} n = true
            ↔ read n = false ∧ Model.receiverId n = receiverId
              ∧ appId n = q_appId gq) as Hm.
    { rewrite matches_true, Ha. cbn. naive_solver. }
    destruct (matches _ n) eqn:E.
    + rewrite decide_True by (by apply Hm). lia.
    + rewrite decide_False; [lia|]. intros Hyes%Hm. done.
Qed.

End marking_counts.

(** ** What a creation stores *)
Section stored.
Import Js Model Routes System.
Implicit Types (w : world) (n : Notification) (now : nat).
Local Open Scope list_scope.

(** X18. A creation that is answered appends one document to the
    collection, after the documents that were there, and returns it: its
    receiver, type, [appId] and [senderId] are the ones of the request, its
    channel is the one of the request when there is one (an empty one
    included), its payload is the one of the request unless that is falsy
    (then it is the empty object), and both its timestamps are the time of
    the call. *)
Theorem post_stores_as_supplied now (body : PostBody) w resp w' :
  post now body w = (inr resp, w') →
  docs (db w') = docs (db w) ++ [post_notification resp]
  ∧ body_receiverId body = Some (receiverId (post_notification resp))
  ∧ body_type body = Some (type (post_notification resp))
  ∧ appId (post_notification resp) = body_appId body
  ∧ senderId (post_notification resp) = body_senderId body
  ∧ (∀ c, body_channel body = Some c → channel (post_notification resp) = c)
  ∧ (∀ j, body_payload body = Some j →
          payload (post_notification resp) = if truthy j then j else JObj [])
  ∧ createdAt (post_notification resp) = now
  ∧ updatedAt (post_notification resp) = now.
Proof.
  intros Hpost.
  destruct (post_cases now body w) as [Hbad|(rid & ty & Hr & Ht & Hrt & Htt)].
  { by rewrite post_rejects in Hpost. }
  destruct (post_accepts now body w rid ty Hr Ht Hrt Htt) as (n & -> & Heq).
  rewrite Heq in Hpost. injection Hpost as <- <-. cbn.
  repeat split; try done.
  - by intros c ->.
  - by intros j ->.
Qed.

(** X19. A creation that is answered reports [delivered = true] exactly
    when the transport has been initialized; before that, the notification
    is stored all the same and nothing is pushed. *)
Theorem post_delivered_iff_transport now (body : PostBody) w resp w' :
  post now body w = (inr resp, w') →
  (post_delivered resp = true ↔ is_Some (Sockets.io (sockets w)))
  ∧ (Sockets.io (sockets w) = None →
     events w' = events w ++ [Persisted (post_notification resp)]
     ∧ post_notification resp ∈ docs (db w')).
Proof.
  intros Hpost.
  destruct (post_cases now body w) as [Hbad|(rid & ty & Hr & Ht & Hrt & Htt)].
  { by rewrite post_rejects in Hpost. }
  destruct (post_accepts now body w rid ty Hr Ht Hrt Htt) as (n & _ & Heq).
  rewrite Heq in Hpost. injection Hpost as <- <-.
  cbn [post_delivered post_notification events db docs].
  rewrite sendNotification_result. split.
  - by rewrite bool_decide_eq_true.
  - intros Hio. unfold Sockets.sendNotification. rewrite Hio. cbn.
    rewrite app_nil_r. split; [done|].
    apply elem_of_app. right. apply list_elem_of_here.
Qed.

End stored.

(** ** The scenario, continued *)
Section scenario_continued.
Import Js Model Routes System.
Local Open Scope nat_scope.
Local Open Scope list_scope.

Lemma unsubscribe_presence_witness :
  (∀ tracked : gset string,
     Sockets.activeConnections (sockets boot) !! "u1" = Some tracked →
     "s1" ∉ tracked)
  ∧ Sockets.activeConnections (Sockets.unsubscribe "s1" "u1" (sockets boot))
    = Sockets.activeConnections (sockets boot).
Proof.
  assert (∀ sockets0 : gset string,
    Sockets.activeConnections (sockets boot) !! "u1" = Some sockets0 →
    "s1" ∉ sockets0) as Hnot by (intros sockets0 Hl; discriminate Hl).
  split; [exact Hnot|].
  exact (proj2 (proj2 (unsubscribe_presence "s1" "u1" (sockets boot))) Hnot).
Defined.

Lemma subscribe_unsubscribe_presence_witness :
  (∀ tracked : gset string,
     Sockets.activeConnections (sockets boot) !! "u1" = Some tracked →
     "s1" ∉ tracked)
  ∧ Sockets.isReceiverOnline "u1"
      (Sockets.unsubscribe "s1" "u1"
         (Sockets.subscribe "s1" "u1" (sockets boot)).1)
    = Sockets.isReceiverOnline "u1" (sockets boot).
Proof.
  assert (∀ sockets0 : gset string,
    Sockets.activeConnections (sockets boot) !! "u1" = Some sockets0 →
    "s1" ∉ sockets0) as Hnot by (intros sockets0 Hl; discriminate Hl).
  split; [exact Hnot|].
  exact (subscribe_unsubscribe_presence "s1" "u1" (sockets boot) "u1" Hnot).
Defined.

Lemma refused_requests_change_nothing_witness :
  post 5 Demo.body_empty Demo.created = (inl missing_fields, Demo.created)
  ∧ Demo.created = Demo.created.
Proof.
  assert (post 5 Demo.body_empty Demo.created
          = (inl missing_fields, Demo.created)) as Hpost by (by vm_compute).
  split; [exact Hpost|].
  exact (proj1 (refused_requests_change_nothing Demo.created) _ _ _ _ Hpost).
Defined.

Lemma list_page_witness :
  get "u1" Demo.query_app1 Demo.created = (inr Demo.listed, Demo.created)
  ∧ length (notifications Demo.listed) ≤ total Demo.listed
  ∧ unreadCount Demo.listed ≤ total Demo.listed.
Proof.
  assert (get "u1" Demo.query_app1 Demo.created
          = (inr Demo.listed, Demo.created)) as Hget by (by vm_compute).
  split; [exact Hget|].
  exact (proj2 (proj2 (list_page _ _ _ _ _ Hget))).
Defined.

Lemma creation_counts_witness :
  post 5 Demo.body_app1 boot
    = (inr {| post_status := 201; post_success := true;
              post_notification := Demo.stored (Some "app1");
              post_delivered := true |}, Demo.created)
  ∧ get "u1" Demo.query_app1 boot = (inr Demo.nothing_listed, boot)
  ∧ ∃ b, get "u1" Demo.query_app1 Demo.created = (inr b, Demo.created)
         ∧ total b = 1 ∧ unreadCount b = 1.
Proof.
  assert (post 5 Demo.body_app1 boot
    = (inr {| post_status := 201; post_success := true;
              post_notification := Demo.stored (Some "app1");
              post_delivered := true |}, Demo.created))
    as Hpost by (by vm_compute).
  assert (get "u1" Demo.query_app1 boot = (inr Demo.nothing_listed, boot))
    as Hget by (by vm_compute).
  split; [exact Hpost|]. split; [exact Hget|].
  exact (creation_counts _ _ _ _ _ _ _ _ _ Hpost Hget).
Defined.

Lemma read_all_counts_witness :
  patch_read_all "u1" Demo.read_all_app1 9 Demo.created
    = (inr {| ra_success := true; modifiedCount := 1 |}, Demo.all_read)
  ∧ get "u1" Demo.query_app1 Demo.created = (inr Demo.listed, Demo.created)
  ∧ q_appId Demo.query_app1 = ra_appId Demo.read_all_app1
  ∧ ∃ b, get "u1" Demo.query_app1 Demo.all_read = (inr b, Demo.all_read)
         ∧ total b = 1 ∧ unreadCount b + 1 = 1.
Proof.
  assert (patch_read_all "u1" Demo.read_all_app1 9 Demo.created
    = (inr {| ra_success := true; modifiedCount := 1 |}, Demo.all_read))
    as Hcall by (by vm_compute).
  assert (get "u1" Demo.query_app1 Demo.created
          = (inr Demo.listed, Demo.created)) as Hget by (by vm_compute).
  split; [exact Hcall|]. split; [exact Hget|]. split; [reflexivity|].
  destruct (read_all_counts _ _ _ _ _ _ _ _ _ Hcall Hget eq_refl)
    as (b & Hb & Htot & Hunread & _).
  exists b. split; [exact Hb|]. split; [exact Htot|exact Hunread].
Defined.

Lemma mark_read_counts_witness :
  list_find (λ m, _id m = 0) (docs (db Demo.created))
    = Some (0, Demo.stored (Some "app1"))
  ∧ get "u1" Demo.query_app1 Demo.created = (inr Demo.listed, Demo.created)
  ∧ ∃ b, get "u1" Demo.query_app1 (patch_read 0 6 Demo.created).2
           = (inr b, (patch_read 0 6 Demo.created).2)
         ∧ total b = 1 ∧ unreadCount b + 1 = 1.
Proof.
  assert (list_find (λ m, _id m = 0) (docs (db Demo.created))
          = Some (0, Demo.stored (Some "app1"))) as Hfind by (by vm_compute).
  assert (get "u1" Demo.query_app1 Demo.created
          = (inr Demo.listed, Demo.created)) as Hget by (by vm_compute).
  split; [exact Hfind|]. split; [exact Hget|].
  exact (mark_read_counts 0 6 _ _ _ _ _ _ _ Hfind Hget).
Defined.

Lemma post_stores_as_supplied_witness :
  post 5 Demo.body_app1 boot
    = (inr {| post_status := 201; post_success := true;
              post_notification := Demo.stored (Some "app1");
              post_delivered := true |}, Demo.created)
  ∧ docs (db Demo.created) = docs (db boot) ++ [Demo.stored (Some "app1")]
  ∧ appId (Demo.stored (Some "app1")) = body_appId Demo.body_app1.
Proof.
  assert (post 5 Demo.body_app1 boot
    = (inr {| post_status := 201; post_success := true;
              post_notification := Demo.stored (Some "app1");
              post_delivered := true |}, Demo.created))
    as Hpost by (by vm_compute).
  split; [exact Hpost|].
  destruct (post_stores_as_supplied _ _ _ _ _ Hpost)
    as (Hdocs & _ & _ & Happ & _).
  split; [exact Hdocs|exact Happ].
Defined.

Lemma post_delivered_iff_transport_witness :
  post 5 Demo.body_app1 Demo.no_transport
    = (inr {| post_status := 201; post_success := true;
              post_notification := Demo.stored (Some "app1");
              post_delivered := false |},
       (post 5 Demo.body_app1 Demo.no_transport).2)
  ∧ (false = true ↔ is_Some (Sockets.io (sockets Demo.no_transport)))
  ∧ events (post 5 Demo.body_app1 Demo.no_transport).2
    = events Demo.no_transport ++ [Persisted (Demo.stored (Some "app1"))].
Proof.
  assert (post 5 Demo.body_app1 Demo.no_transport
    = (inr {| post_status := 201; post_success := true;
              post_notification := Demo.stored (Some "app1");
              post_delivered := false |},
       (post 5 Demo.body_app1 Demo.no_transport).2))
    as Hpost by (by vm_compute).
  split; [exact Hpost|].
  destruct (post_delivered_iff_transport _ _ _ _ _ Hpost) as (Hiff & Hnone).
  split; [exact Hiff|]. exact (proj1 (Hnone eq_refl)).
Defined.

End scenario_continued.
